(** * httpd/apihandler.c: endpoint dispatch, precondition checks and the
      token-keyed client registry of the Armadito web API.

    The development embeds the functions of [apihandler.c] as Rocq
    functions.  Values of type [string] stand for the contents of
    NUL-terminated C strings (they hold no NUL byte); a C pointer that may
    be NULL is an [option].  The libraries the file links against
    (libmicrohttpd, GLib, jansson) are modelled by small modules that follow
    their documented behaviour; what [httpd.h] and [api.h] declare (the
    method constants and the endpoint callbacks) is taken as an interface.
    Logging ([log_d], [log_w]) and reference counting have no effect on the
    values computed here and are left out. *)

From Stdlib Require Import ZArith List String Ascii Bool Lia DecimalString.
Import ListNotations.

Local Open Scope string_scope.
Local Open Scope list_scope.
Local Open Scope Z_scope.

(** ** C strings *)

Module CString.

(** [strcmp]: the difference of the first pair of bytes that differ, taken
    as unsigned chars; 0 when the strings are equal. *)
Fixpoint strcmp (a b : string) : Z :=
  match a, b with
  | EmptyString, EmptyString => 0
  | EmptyString, String y _ => - Z.of_nat (nat_of_ascii y) - 1
  | String x _, EmptyString => Z.of_nat (nat_of_ascii x) + 1
  | String x a', String y b' =>
      if Ascii.eqb x y then strcmp a' b'
      else Z.of_nat (nat_of_ascii x) - Z.of_nat (nat_of_ascii y)
  end.

(** [strchr s c]: the offset of the first occurrence of [c] in [s], NULL
    when there is none. *)
Fixpoint strchr (s : string) (c : ascii) : option nat :=
  match s with
  | EmptyString => None
  | String x r => if Ascii.eqb x c then Some O else option_map S (strchr r c)
  end.

(** [strncpy ret s len; ret[len] = 0]: the first [len] bytes of [s]. *)
Fixpoint strncpy (s : string) (len : nat) : string :=
  match len, s with
  | S n, String x r => String x (strncpy r n)
  | _, _ => EmptyString
  end.

Definition strlen (s : string) : nat := String.length s.

Definition tolower (c : ascii) : ascii :=
  let n := nat_of_ascii c in
  if ((65 <=? n) && (n <=? 90))%nat then ascii_of_nat (n + 32) else c.

Fixpoint str_tolower (s : string) : string :=
  match s with
  | EmptyString => EmptyString
  | String x r => String (tolower x) (str_tolower r)
  end.

End CString.

(** ** libmicrohttpd *)

Module MHD.

Definition MHD_HTTP_OK : Z := 200.
Definition MHD_HTTP_BAD_REQUEST : Z := 400.
Definition MHD_HTTP_FORBIDDEN : Z := 403.
Definition MHD_HTTP_NOT_FOUND : Z := 404.
Definition MHD_HTTP_METHOD_NOT_ALLOWED : Z := 405.
Definition MHD_HTTP_UNSUPPORTED_MEDIA_TYPE : Z := 415.
Definition MHD_HTTP_UNPROCESSABLE_ENTITY : Z := 422.
Definition MHD_HTTP_INTERNAL_SERVER_ERROR : Z := 500.

Definition MHD_HTTP_HEADER_USER_AGENT := "User-Agent".
Definition MHD_HTTP_HEADER_CONTENT_TYPE := "Content-Type".
Definition MHD_HTTP_HEADER_CONNECTION := "Connection".
Definition MHD_HTTP_HEADER_ACCESS_CONTROL_ALLOW_ORIGIN :=
  "Access-Control-Allow-Origin".

Inductive MHD_ValueKind :=
| MHD_HEADER_KIND
| MHD_COOKIE_KIND
| MHD_POSTDATA_KIND
| MHD_GET_ARGUMENT_KIND
| MHD_FOOTER_KIND.

Definition MHD_ValueKind_eqb (k1 k2 : MHD_ValueKind) : bool :=
  match k1, k2 with
  | MHD_HEADER_KIND, MHD_HEADER_KIND
  | MHD_COOKIE_KIND, MHD_COOKIE_KIND
  | MHD_POSTDATA_KIND, MHD_POSTDATA_KIND
  | MHD_GET_ARGUMENT_KIND, MHD_GET_ARGUMENT_KIND
  | MHD_FOOTER_KIND, MHD_FOOTER_KIND => true
  | _, _ => false
  end.

(** Header names are compared without regard to case. *)
Definition MHD_str_equal_caseless (a b : string) : bool :=
  String.eqb (CString.str_tolower a) (CString.str_tolower b).

(** A connection, as far as this file reads it: the key/value pairs the
    request carries, in the order they were received. *)
Record MHD_Connection := {
  connection_values : list (MHD_ValueKind * string * string)
}.

Fixpoint lookup_value (vs : list (MHD_ValueKind * string * string))
    (kind : MHD_ValueKind) (key : string) : option string :=
  match vs with
  | [] => None
  | (k, h, v) :: rest =>
      if MHD_ValueKind_eqb k kind && MHD_str_equal_caseless h key
      then Some v
      else lookup_value rest kind key
  end.

Definition MHD_lookup_connection_value (connection : MHD_Connection)
    (kind : MHD_ValueKind) (key : string) : option string :=
  lookup_value (connection_values connection) kind key.

Record MHD_Response := {
  response_body : string;
  response_headers : list (string * string)
}.

(** The response owns [size] bytes of [buffer]; allocation is taken to
    succeed. *)
Definition MHD_create_response_from_buffer (size : nat) (buffer : string)
    : MHD_Response :=
  {| response_body := CString.strncpy buffer size; response_headers := [] |}.

Definition MHD_add_response_header (response : MHD_Response)
    (header content : string) : MHD_Response :=
  {| response_body := response_body response;
     response_headers := response_headers response ++ [(header, content)] |}.

Fixpoint lookup_header (hs : list (string * string)) (key : string)
    : option string :=
  match hs with
  | [] => None
  | (h, v) :: rest =>
      if MHD_str_equal_caseless h key then Some v else lookup_header rest key
  end.

Definition MHD_get_response_header (response : MHD_Response) (key : string)
    : option string :=
  lookup_header (response_headers response) key.

(** What a call of the dispatcher leaves on the connection: a response
    queued with a status code, or a fault when a NULL pointer is
    dereferenced before anything is queued. *)
Inductive outcome :=
| Queued (status_code : Z) (response : MHD_Response)
| Fault_null_dereference.

Definition MHD_queue_response (connection : MHD_Connection)
    (status_code : Z) (response : MHD_Response) : outcome :=
  Queued status_code response.

End MHD.

(** ** GLib hash table with string keys ([g_str_hash], [g_str_equal]) *)

Module GHashTable.

Definition t (V : Type) := list (string * V).

Definition g_hash_table_new {V : Type} : t V := [].

Fixpoint g_hash_table_contains {V : Type} (table : t V) (key : string)
    : bool :=
  match table with
  | [] => false
  | (k, _) :: rest =>
      if String.eqb k key then true else g_hash_table_contains rest key
  end.

(** [g_hash_table_lookup] yields the stored value, NULL for an unknown
    key; the values stored here are pointers. *)
Fixpoint g_hash_table_lookup {V : Type} (table : t (option V))
    (key : string) : option V :=
  match table with
  | [] => None
  | (k, v) :: rest =>
      if String.eqb k key then v else g_hash_table_lookup rest key
  end.

(** [g_hash_table_insert]: a known key keeps its entry and gets the new
    value, an unknown key gets a new entry. *)
Fixpoint g_hash_table_insert {V : Type} (table : t V) (key : string)
    (value : V) : t V :=
  match table with
  | [] => [(key, value)]
  | (k, v) :: rest =>
      if String.eqb k key then (k, value) :: rest
      else (k, v) :: g_hash_table_insert rest key value
  end.

(** [g_hash_table_remove]: unlinks the entry of the key; TRUE when the
    key was found. *)
Fixpoint g_hash_table_remove {V : Type} (table : t V) (key : string)
    : bool * t V :=
  match table with
  | [] => (false, [])
  | (k, v) :: rest =>
      if String.eqb k key then (true, rest)
      else let (found, rest') := g_hash_table_remove rest key in
           (found, (k, v) :: rest')
  end.

Definition keys {V : Type} (table : t V) : list string := map fst table.

End GHashTable.

(** ** jansson values *)

#[local] Set Warnings "-register-all".

Inductive json :=
| JSON_OBJECT (members : list (string * json))
| JSON_ARRAY (elements : list json)
| JSON_STRING (value : string)
| JSON_INTEGER (value : Z)
| JSON_REAL (lexeme : string)
| JSON_TRUE
| JSON_FALSE
| JSON_NULL.

Definition json_object : json := JSON_OBJECT [].
Definition json_integer (value : Z) : json := JSON_INTEGER value.
Definition json_string (value : string) : json := JSON_STRING value.

Fixpoint set_member (members : list (string * json)) (key : string)
    (value : json) : list (string * json) :=
  match members with
  | [] => [(key, value)]
  | (k, v) :: rest =>
      if String.eqb k key then (k, value) :: rest
      else (k, v) :: set_member rest key value
  end.

(** [json_object_set]: sets [key] in an object, replacing the value of a key
    the object already has; anything but an object is left as it is. *)
Definition json_object_set (object : json) (key : string) (value : json)
    : json :=
  match object with
  | JSON_OBJECT members => JSON_OBJECT (set_member members key value)
  | other => other
  end.

(** The decoder and the encoder of jansson, as the file calls them: both
    take the flags word as their second argument, and both answer NULL on
    failure.  Encoding a NULL value fails. *)
Class Jansson := {
  json_loads : string -> Z -> option json;
  json_dumps : option json -> Z -> option string;
  json_dumps_NULL : forall flags, json_dumps None flags = None
}.

(** ** httpd.h: the method constants *)

Class Httpd := {
  HTTP_METHOD_GET : Z;
  HTTP_METHOD_POST : Z
}.

(** ** api.h: the endpoint callbacks *)

Inductive process_cb_t :=
| register_process_cb
| unregister_process_cb
| ping_process_cb
| event_process_cb
| scan_process_cb
| status_process_cb
| browse_process_cb
| version_process_cb.

Inductive check_cb_t :=
| scan_check_cb.

(** ** apihandler.c *)

Import CString MHD GHashTable.

Definition API_TOKEN_HEADER := "X-Armadito-Token".
Definition API_VERSION_HEADER := "X-Armadito-Api-Version".
Definition API_VERSION := "armadito.v0".

Definition quoted (s : string) : string := String "034" (s ++ String "034" "").

Definition JSON_400 : string :=
  "{" ++ quoted "code" ++ ":400, " ++ quoted "message" ++ ": " ++
  quoted "Bad Request. Make sure your request has a X-Armadito-Token header and if POST request contains valid JSON" ++ "}".
Definition JSON_403 : string :=
  "{" ++ quoted "code" ++ ":403, " ++ quoted "message" ++ ": " ++
  quoted "Request forbidden. Make sure your request has a User-Agent header" ++ "}".
Definition JSON_404 : string :=
  "{" ++ quoted "code" ++ ":404, " ++ quoted "message" ++ ": " ++
  quoted "Not found" ++ "}".
Definition JSON_405 : string :=
  "{" ++ quoted "code" ++ ":405, " ++ quoted "message" ++ ": " ++
  quoted "Method not allowed" ++ "}".
Definition JSON_415 : string :=
  "{" ++ quoted "code" ++ ":415, " ++ quoted "message" ++ ": " ++
  quoted "Unsupported Media Type. Content-Type must be application/json" ++ "}".
Definition JSON_422 : string :=
  "{" ++ quoted "code" ++ ":422, " ++ quoted "message" ++ ": " ++
  quoted "Unprocessable request. Make sure the JSON request is valid" ++ "}".

Record api_handler (api_client user_data_t : Type) := {
  client_table : GHashTable.t (option api_client);
  response_400 : MHD_Response;
  response_403 : MHD_Response;
  response_404 : MHD_Response;
  response_405 : MHD_Response;
  response_415 : MHD_Response;
  response_422 : MHD_Response;
  user_data : user_data_t
}.

Arguments client_table {api_client user_data_t}.
Arguments response_400 {api_client user_data_t}.
Arguments response_403 {api_client user_data_t}.
Arguments response_404 {api_client user_data_t}.
Arguments response_405 {api_client user_data_t}.
Arguments response_415 {api_client user_data_t}.
Arguments response_422 {api_client user_data_t}.
Arguments user_data {api_client user_data_t}.

(** What the callbacks of [api.h] compute.  A check callback reads the
    connection and the parsed request and answers nonzero for invalid
    parameters.  A process callback answers nonzero on failure, may set the
    response and may change the handler (the client table). *)
Class ApiCallbacks (api_client user_data_t : Type) := {
  call_check_cb : check_cb_t -> MHD_Connection -> option json -> Z;
  call_process_cb :
    process_cb_t -> api_handler api_client user_data_t -> MHD_Connection ->
    option json -> user_data_t ->
    Z * option json * api_handler api_client user_data_t
}.

Record api_endpoint := {
  path : string;
  accepted_methods : Z;
  need_token : Z;
  process_cb : process_cb_t;
  check_cb : option check_cb_t
}.

(** The calls the dispatcher makes out of this file, in order. *)
Inductive call :=
| Call_json_loads (input : string) (flags : Z)
| Call_check_cb (cb : check_cb_t) (j_request : option json)
| Call_process_cb (cb : process_cb_t) (j_request : option json).

Inductive pre_check_result :=
| PreCheckOk (endpoint : api_endpoint)
| PreCheckError (http_status_code : Z) (error_response : MHD_Response).

Section ApiHandler.

Context {api_client user_data_t : Type}.
Context `{Httpd} `{Jansson} `{ApiCallbacks api_client user_data_t}.

Abbreviation handler := (api_handler api_client user_data_t).

Definition api_endpoint_table : list api_endpoint := [
  {| path := "/register"; accepted_methods := HTTP_METHOD_GET;
     need_token := 0; process_cb := register_process_cb; check_cb := None |};
  {| path := "/unregister"; accepted_methods := HTTP_METHOD_GET;
     need_token := 1; process_cb := unregister_process_cb; check_cb := None |};
  {| path := "/ping"; accepted_methods := HTTP_METHOD_GET;
     need_token := 1; process_cb := ping_process_cb; check_cb := None |};
  {| path := "/event"; accepted_methods := HTTP_METHOD_GET;
     need_token := 1; process_cb := event_process_cb; check_cb := None |};
  {| path := "/scan"; accepted_methods := HTTP_METHOD_POST;
     need_token := 1; process_cb := scan_process_cb;
     check_cb := Some scan_check_cb |};
  {| path := "/status"; accepted_methods := HTTP_METHOD_GET;
     need_token := 0; process_cb := status_process_cb; check_cb := None |};
  {| path := "/browse"; accepted_methods := HTTP_METHOD_GET;
     need_token := 0; process_cb := browse_process_cb; check_cb := None |};
  {| path := "/version"; accepted_methods := HTTP_METHOD_GET;
     need_token := 0; process_cb := version_process_cb; check_cb := None |}
].

(** The loop of [get_api_endpoint]: the first entry whose path compares
    equal, NULL at the end of the table. *)
Fixpoint find_endpoint (table : list api_endpoint) (p : string)
    : option api_endpoint :=
  match table with
  | [] => None
  | e :: rest =>
      if strcmp (path e) p =? 0 then Some e else find_endpoint rest p
  end.

Definition get_api_endpoint (p : string) : option api_endpoint :=
  find_endpoint api_endpoint_table p.

Definition api_get_user_agent (connection : MHD_Connection) : option string :=
  MHD_lookup_connection_value connection MHD_HEADER_KIND
    MHD_HTTP_HEADER_USER_AGENT.

Definition api_get_content_type (connection : MHD_Connection)
    : option string :=
  match MHD_lookup_connection_value connection MHD_HEADER_KIND
          MHD_HTTP_HEADER_CONTENT_TYPE with
  | None => None
  | Some s_content_type =>
      match strchr s_content_type ";" with
      | Some len =>
          if (0 <? len)%nat then Some (strncpy s_content_type len)
          else Some s_content_type
      | None => Some s_content_type
      end
  end.

Definition api_get_token (connection : MHD_Connection) : option string :=
  MHD_lookup_connection_value connection MHD_HEADER_KIND API_TOKEN_HEADER.

Definition api_get_argument (connection : MHD_Connection) (key : string)
    : option string :=
  MHD_lookup_connection_value connection MHD_GET_ARGUMENT_KIND key.

Definition is_NULL {A : Type} (p : option A) : bool :=
  match p with None => true | Some _ => false end.

Definition api_handler_pre_check (a : handler) (connection : MHD_Connection)
    (method : Z) (p : string) : pre_check_result :=
  match get_api_endpoint p with
  | None => PreCheckError MHD_HTTP_NOT_FOUND (response_404 a)
  | Some endpoint =>
      if is_NULL (api_get_user_agent connection) then
        PreCheckError MHD_HTTP_FORBIDDEN (response_403 a)
      else if negb (need_token endpoint =? 0)
              && is_NULL (api_get_token connection) then
        PreCheckError MHD_HTTP_BAD_REQUEST (response_400 a)
      else if Z.land (accepted_methods endpoint) method =? 0 then
        PreCheckError MHD_HTTP_METHOD_NOT_ALLOWED (response_405 a)
      else if method =? HTTP_METHOD_POST then
        match api_get_content_type connection with
        | None =>
            PreCheckError MHD_HTTP_UNSUPPORTED_MEDIA_TYPE (response_415 a)
        | Some content_type =>
            if negb (strcmp content_type "application/json" =? 0) then
              PreCheckError MHD_HTTP_UNSUPPORTED_MEDIA_TYPE (response_415 a)
            else PreCheckOk endpoint
        end
      else PreCheckOk endpoint
  end.

Definition pre_check_status (r : pre_check_result) : Z :=
  match r with
  | PreCheckOk _ => MHD_HTTP_OK
  | PreCheckError http_status_code _ => http_status_code
  end.

Definition pre_check_error_response (r : pre_check_result)
    : option MHD_Response :=
  match r with
  | PreCheckOk _ => None
  | PreCheckError _ error_response => Some error_response
  end.

Definition api_parse_json_request (post_data : string) (post_data_size : Z)
    : option json :=
  json_loads post_data post_data_size.

Definition api_queue_response (connection : MHD_Connection)
    (http_status : Z) (j_response : option json) : outcome :=
  match json_dumps j_response 0 with
  | None => Fault_null_dereference
  | Some json_buff =>
      let response :=
        MHD_create_response_from_buffer (strlen json_buff) json_buff in
      let response :=
        MHD_add_response_header response MHD_HTTP_HEADER_CONTENT_TYPE
          "application/json" in
      let response :=
        MHD_add_response_header response MHD_HTTP_HEADER_CONNECTION "close" in
      let response :=
        MHD_add_response_header response
          MHD_HTTP_HEADER_ACCESS_CONTROL_ALLOW_ORIGIN "*" in
      let response :=
        MHD_add_response_header response API_VERSION_HEADER API_VERSION in
      MHD_queue_response connection http_status response
  end.

Definition api_queue_response_500 (connection : MHD_Connection)
    (j_response : option json) : outcome :=
  let j_error := json_object in
  let j_error := json_object_set j_error "code" (json_integer 500) in
  let j_error :=
    json_object_set j_error "message"
      (json_string "Request processing triggered an internal error") in
  let j_error :=
    match j_response with
    | Some data => json_object_set j_error "data" data
    | None => j_error
    end in
  api_queue_response connection MHD_HTTP_INTERNAL_SERVER_ERROR (Some j_error).

Record served := {
  served_outcome : outcome;
  served_handler : handler;
  served_calls : list call
}.

Definition api_handler_serve (a : handler) (connection : MHD_Connection)
    (method : Z) (p : string) (post_data : string) (post_data_size : Z)
    : served :=
  match api_handler_pre_check a connection method p with
  | PreCheckError http_status_code response =>
      {| served_outcome :=
           MHD_queue_response connection http_status_code response;
         served_handler := a;
         served_calls := [] |}
  | PreCheckOk endpoint =>
      let parse := (method =? HTTP_METHOD_POST) && negb (post_data_size =? 0) in
      let j_request :=
        if parse then api_parse_json_request post_data post_data_size
        else None in
      let parse_calls :=
        if parse then [Call_json_loads post_data post_data_size] else [] in
      if parse && is_NULL j_request then
        {| served_outcome :=
             MHD_queue_response connection MHD_HTTP_BAD_REQUEST
               (response_400 a);
           served_handler := a;
           served_calls := parse_calls |}
      else
        let check_calls :=
          match check_cb endpoint with
          | Some cb => [Call_check_cb cb j_request]
          | None => []
          end in
        let check_failed :=
          match check_cb endpoint with
          | Some cb => negb (call_check_cb cb connection j_request =? 0)
          | None => false
          end in
        if check_failed then
          {| served_outcome :=
               MHD_queue_response connection MHD_HTTP_UNPROCESSABLE_ENTITY
                 (response_422 a);
             served_handler := a;
             served_calls := parse_calls ++ check_calls |}
        else
          let '(ret, j_response, a') :=
            call_process_cb (process_cb endpoint) a connection j_request
              (user_data a) in
          let calls :=
            parse_calls ++ check_calls
              ++ [Call_process_cb (process_cb endpoint) j_request] in
          if negb (ret =? 0) then
            {| served_outcome := api_queue_response_500 connection j_response;
               served_handler := a';
               served_calls := calls |}
          else
            {| served_outcome :=
                 api_queue_response connection MHD_HTTP_OK j_response;
               served_handler := a';
               served_calls := calls |}
  end.

Definition create_std_response (json : string) : MHD_Response :=
  let resp := MHD_create_response_from_buffer (strlen json) json in
  let resp :=
    MHD_add_response_header resp MHD_HTTP_HEADER_CONTENT_TYPE
      "application/json" in
  let resp := MHD_add_response_header resp MHD_HTTP_HEADER_CONNECTION "close" in
  resp.

Definition api_handler_new (ud : user_data_t) : handler :=
  {| client_table := g_hash_table_new;
     response_400 := create_std_response JSON_400;
     response_403 := create_std_response JSON_403;
     response_404 := create_std_response JSON_404;
     response_405 := create_std_response JSON_405;
     response_415 := create_std_response JSON_415;
     response_422 := create_std_response JSON_422;
     user_data := ud |}.

Definition set_client_table (a : handler)
    (table : GHashTable.t (option api_client)) : handler :=
  {| client_table := table;
     response_400 := response_400 a;
     response_403 := response_403 a;
     response_404 := response_404 a;
     response_405 := response_405 a;
     response_415 := response_415 a;
     response_422 := response_422 a;
     user_data := user_data a |}.

Definition api_handler_add_client (a : handler) (token : string)
    (client : option api_client) : Z * handler :=
  if g_hash_table_contains (client_table a) token then (1, a)
  else (0, set_client_table a
             (g_hash_table_insert (client_table a) token client)).

Definition api_handler_get_client (a : handler) (token : string)
    : option api_client :=
  g_hash_table_lookup (client_table a) token.

Definition api_handler_remove_client (a : handler) (token : string)
    : Z * handler :=
  let (ret, table) := g_hash_table_remove (client_table a) token in
  if negb ret then (1, a) else (0, set_client_table a table).

End ApiHandler.

(** ** A reference model of the jansson decoder and encoder

    The model follows the decoder of jansson ([lex_scan], [parse_value],
    [parse_json]): its flags, its escapes, its check of UTF-8 sequences,
    its bounds on integers, reals and nesting.  A real is carried as its
    lexeme: the model does not convert it to a double, and the encoder
    writes the lexeme back where the library formats the double.  The
    encoder is the one of flags 0 and JSON_ENCODE_ANY: default separators,
    bytes above 127 written as they are.  The model serves to run the
    dispatcher on concrete requests; the general statements below hold for
    every decoder and encoder. *)

Module JanssonModel.

Definition JSON_REJECT_DUPLICATES : Z := 1.
Definition JSON_DISABLE_EOF_CHECK : Z := 2.
Definition JSON_DECODE_ANY : Z := 4.
Definition JSON_DECODE_INT_AS_REAL : Z := 8.
Definition JSON_ALLOW_NUL : Z := 16.
Definition JSON_ENCODE_ANY : Z := 512.
Definition JSON_PARSER_MAX_DEPTH : nat := 2048.

Definition has_flag (flags flag : Z) : bool :=
  negb (Z.land flags flag =? 0).

Inductive token :=
| TOKEN_INVALID
| TOKEN_EOF
| TOKEN_STRING (value : string)
| TOKEN_INTEGER (value : Z)
| TOKEN_REAL (lexeme : string)
| TOKEN_TRUE
| TOKEN_FALSE
| TOKEN_NULL
| TOKEN_CHAR (c : ascii).

Definition l_isdigit (c : ascii) : bool :=
  let n := nat_of_ascii c in ((48 <=? n) && (n <=? 57))%nat.

Definition l_isalpha (c : ascii) : bool :=
  let n := nat_of_ascii c in
  (((65 <=? n) && (n <=? 90)) || ((97 <=? n) && (n <=? 122)))%nat.

Definition is_space (c : ascii) : bool :=
  let n := nat_of_ascii c in
  ((n =? 32) || (n =? 9) || (n =? 10) || (n =? 13))%nat.

Definition is_punctuation (c : ascii) : bool :=
  existsb (Ascii.eqb c) ["{"; "}"; "["; "]"; ":"; ","]%char.

Fixpoint skip_space (s : string) : string :=
  match s with
  | String c r => if is_space c then skip_space r else s
  | EmptyString => s
  end.

(** The longest prefix of [s] whose bytes satisfy [f], and what follows. *)
Fixpoint span (f : ascii -> bool) (s : string) : string * string :=
  match s with
  | String c r =>
      if f c then let (pre, post) := span f r in (String c pre, post)
      else (EmptyString, s)
  | EmptyString => (EmptyString, EmptyString)
  end.

Fixpoint digits_value (s : string) (acc : Z) : Z :=
  match s with
  | String c r => digits_value r (10 * acc + (Z.of_nat (nat_of_ascii c) - 48))
  | EmptyString => acc
  end.

Definition unescape (c : ascii) : option ascii :=
  if Ascii.eqb c "034" then Some "034"%char
  else if Ascii.eqb c "\" then Some "\"%char
  else if Ascii.eqb c "/" then Some "/"%char
  else if Ascii.eqb c "b" then Some "008"%char
  else if Ascii.eqb c "f" then Some "012"%char
  else if Ascii.eqb c "n" then Some "010"%char
  else if Ascii.eqb c "r" then Some "013"%char
  else if Ascii.eqb c "t" then Some "009"%char
  else None.

Fixpoint has_nul (s : string) : bool :=
  match s with
  | EmptyString => false
  | String c r => (nat_of_ascii c =? 0)%nat || has_nul r
  end.

Definition byte_of (u : Z) : ascii := ascii_of_nat (Z.to_nat u).

Definition hex_value (c : ascii) : option Z :=
  let n := nat_of_ascii c in
  if ((48 <=? n) && (n <=? 57))%nat then Some (Z.of_nat n - 48)
  else if ((97 <=? n) && (n <=? 102))%nat then Some (Z.of_nat n - 87)
  else if ((65 <=? n) && (n <=? 70))%nat then Some (Z.of_nat n - 55)
  else None.

(** [decode_unicode_escape]: the four hexadecimal digits after the u. *)
Definition decode_unicode_escape (s : string) : option (Z * string) :=
  match s with
  | String a (String b (String c (String d r))) =>
      match hex_value a, hex_value b, hex_value c, hex_value d with
      | Some x, Some y, Some z, Some w =>
          Some (((x * 16 + y) * 16 + z) * 16 + w, r)
      | _, _, _, _ => None
      end
  | _ => None
  end.

(** The code point of an escape, what follows the u being [s]: a first
    surrogate (D800 to DBFF) must be followed by the escape of a second one
    (DC00 to DFFF), and a second one may not come alone. *)
Definition unicode_escape (s : string) : option (Z * string) :=
  match decode_unicode_escape s with
  | None => None
  | Some (value, r) =>
      if (55296 <=? value) && (value <=? 56319) then
        match r with
        | String "\" (String "u" r1) =>
            match decode_unicode_escape r1 with
            | Some (value2, r2) =>
                if (56320 <=? value2) && (value2 <=? 57343) then
                  Some ((value - 55296) * 1024 + (value2 - 56320) + 65536, r2)
                else None
            | None => None
            end
        | _ => None
        end
      else if (56320 <=? value) && (value <=? 57343) then None
      else Some (value, r)
  end.

Definition utf8_encode (codepoint : Z) : string :=
  if codepoint <? 128 then String (byte_of codepoint) EmptyString
  else if codepoint <? 2048 then
    String (byte_of (192 + codepoint / 64))
      (String (byte_of (128 + codepoint mod 64)) EmptyString)
  else if codepoint <? 65536 then
    String (byte_of (224 + codepoint / 4096))
      (String (byte_of (128 + (codepoint / 64) mod 64))
         (String (byte_of (128 + codepoint mod 64)) EmptyString))
  else
    String (byte_of (240 + codepoint / 262144))
      (String (byte_of (128 + (codepoint / 4096) mod 64))
         (String (byte_of (128 + (codepoint / 64) mod 64))
            (String (byte_of (128 + codepoint mod 64)) EmptyString))).

(** [utf8_check_first]: the length of the sequence a byte starts, 0 for a
    byte that starts none. *)
Definition utf8_check_first (u : Z) : nat :=
  if u <? 128 then 1
  else if u <=? 193 then 0
  else if u <=? 223 then 2
  else if u <=? 239 then 3
  else if u <=? 244 then 4
  else 0.

Fixpoint utf8_continuation (count : nat) (value : Z) (s : string)
    : option (Z * string * string) :=
  match count with
  | O => Some (value, EmptyString, s)
  | S k =>
      match s with
      | String c r =>
          let u := Z.of_nat (nat_of_ascii c) in
          if (u <? 128) || (191 <? u) then None
          else
            match utf8_continuation k (value * 64 + u mod 64) r with
            | Some (v, bytes, rest) => Some (v, String c bytes, rest)
            | None => None
            end
      | EmptyString => None
      end
  end.

(** [utf8_check_full] on the sequence the byte [c] starts: its bytes and
    what follows, or nothing when the sequence is cut short, overlong, a
    surrogate or beyond 10FFFF. *)
Definition utf8_sequence (c : ascii) (r : string) : option (string * string) :=
  let u := Z.of_nat (nat_of_ascii c) in
  let size := utf8_check_first u in
  let lead :=
    match size with
    | 2%nat => Some (u mod 32, 128)
    | 3%nat => Some (u mod 16, 2048)
    | 4%nat => Some (u mod 8, 65536)
    | _ => None
    end in
  match lead with
  | None => None
  | Some (first, least) =>
      match utf8_continuation (size - 1) first r with
      | None => None
      | Some (value, bytes, rest) =>
          if (1114111 <? value)
             || ((55296 <=? value) && (value <=? 57343))
             || (value <? least)
          then None
          else Some (String c bytes, rest)
      end
  end.

(** The body of a string token, after its opening quote. *)
Fixpoint lex_scan_string (fuel : nat) (s : string) : option (string * string) :=
  match fuel with
  | O => None
  | S fuel' =>
      match s with
      | EmptyString => None
      | String c r =>
          if Ascii.eqb c "034" then Some (EmptyString, r)
          else if (nat_of_ascii c <? 32)%nat then None
          else if Ascii.eqb c "\" then
            match r with
            | String e r' =>
                if Ascii.eqb e "u" then
                  match unicode_escape r' with
                  | Some (codepoint, r'') =>
                      match lex_scan_string fuel' r'' with
                      | Some (value, rest) =>
                          Some ((utf8_encode codepoint ++ value)%string, rest)
                      | None => None
                      end
                  | None => None
                  end
                else
                  match unescape e, lex_scan_string fuel' r' with
                  | Some x, Some (value, rest) => Some (String x value, rest)
                  | _, _ => None
                  end
            | EmptyString => None
            end
          else if (nat_of_ascii c <? 128)%nat then
            match lex_scan_string fuel' r with
            | Some (value, rest) => Some (String c value, rest)
            | None => None
            end
          else
            match utf8_sequence c r with
            | Some (bytes, r') =>
                match lex_scan_string fuel' r' with
                | Some (value, rest) => Some ((bytes ++ value)%string, rest)
                | None => None
                end
            | None => None
            end
      end
  end.

Definition starts_with (f : ascii -> bool) (s : string) : bool :=
  match s with String c _ => f c | EmptyString => false end.

(** Whether the decimal number [digits] times ten to the [exponent]
    rounds to an infinite double: it does from 2^1024 - 2^970 on. *)
Definition real_overflows (digits : string) (exponent : Z) : bool :=
  let mantissa := digits_value digits 0 in
  let limit := 2 ^ 1024 - 2 ^ 970 in
  if mantissa =? 0 then false
  else if 0 <=? exponent then
    (400 <? exponent) || (limit <=? mantissa * 10 ^ exponent)
  else if Z.of_nat (String.length digits) <=? - exponent then false
  else limit * 10 ^ (- exponent) <=? mantissa.

Definition lex_scan_number (flags : Z) (s : string) : token * string :=
  let (sign, s1) :=
    match s with
    | String "-" r => ("-", r)
    | _ => ("", s)
    end in
  let (int_part, s2) := span l_isdigit s1 in
  let well_formed :=
    match int_part with
    | EmptyString => false
    | String "0" (String _ _) => false
    | _ => true
    end in
  if negb well_formed then (TOKEN_INVALID, s2)
  else
    let is_real_mark c :=
      Ascii.eqb c "." || Ascii.eqb c "E" || Ascii.eqb c "e" in
    if negb (has_flag flags JSON_DECODE_INT_AS_REAL)
       && negb (starts_with is_real_mark s2) then
      let magnitude := digits_value int_part 0 in
      let value := if String.eqb sign "-" then - magnitude else magnitude in
      if (- 2 ^ 63 <=? value) && (value <=? 2 ^ 63 - 1)
      then (TOKEN_INTEGER value, s2)
      else (TOKEN_INVALID, s2)
    else
      let fraction :=
        match s2 with
        | String "." r =>
            let (ds, r') := span l_isdigit r in
            match ds with
            | EmptyString => None
            | _ => Some (ds, ("." ++ ds)%string, r')
            end
        | _ => Some ("", "", s2)
        end in
      match fraction with
      | None => (TOKEN_INVALID, s2)
      | Some (frac_digits, frac, s3) =>
          let exponent :=
            match s3 with
            | String e r =>
                if Ascii.eqb e "E" || Ascii.eqb e "e" then
                  let (esign, r1) :=
                    match r with
                    | String "+" r0 => ("+", r0)
                    | String "-" r0 => ("-", r0)
                    | _ => ("", r)
                    end in
                  let (ds, r2) := span l_isdigit r1 in
                  match ds with
                  | EmptyString => None
                  | _ =>
                      Some (if String.eqb esign "-" then - digits_value ds 0
                            else digits_value ds 0,
                            String e (esign ++ ds)%string, r2)
                  end
                else Some (0, "", s3)
            | EmptyString => Some (0, "", s3)
            end in
          match exponent with
          | None => (TOKEN_INVALID, s3)
          | Some (ten_power, ex, s4) =>
              if real_overflows (int_part ++ frac_digits)%string
                   (ten_power - Z.of_nat (String.length frac_digits))
              then (TOKEN_INVALID, s4)
              else (TOKEN_REAL (sign ++ int_part ++ frac ++ ex)%string, s4)
          end
      end.

Definition lex_scan (flags : Z) (input : string) : token * string :=
  match skip_space input with
  | EmptyString => (TOKEN_EOF, EmptyString)
  | String c r as s =>
      if is_punctuation c then (TOKEN_CHAR c, r)
      else if Ascii.eqb c "034" then
        match lex_scan_string (S (String.length r)) r with
        | Some (value, rest) => (TOKEN_STRING value, rest)
        | None => (TOKEN_INVALID, r)
        end
      else if l_isdigit c || Ascii.eqb c "-" then lex_scan_number flags s
      else if l_isalpha c then
        let (word, rest) := span l_isalpha s in
        if String.eqb word "true" then (TOKEN_TRUE, rest)
        else if String.eqb word "false" then (TOKEN_FALSE, rest)
        else if String.eqb word "null" then (TOKEN_NULL, rest)
        else (TOKEN_INVALID, rest)
      else (TOKEN_INVALID, r)
  end.

Definition is_char (tok : token) (c : ascii) : bool :=
  match tok with TOKEN_CHAR x => Ascii.eqb x c | _ => false end.

Fixpoint has_key (members : list (string * json)) (key : string) : bool :=
  match members with
  | [] => false
  | (k, _) :: rest => String.eqb k key || has_key rest key
  end.

(** [parse_value], and the loops of [parse_array] and [parse_object]; the
    current token has been scanned by the caller, as in the library, and
    [depth] counts the values being parsed around this one. *)
Fixpoint parse_value (fuel : nat) (flags : Z) (depth : nat) (tok : token)
    (rest : string) : option (json * string) :=
  match fuel with
  | O => None
  | S fuel' =>
      if (JSON_PARSER_MAX_DEPTH <? S depth)%nat then None
      else
        match tok with
        | TOKEN_STRING value =>
            if negb (has_flag flags JSON_ALLOW_NUL) && has_nul value then None
            else Some (JSON_STRING value, rest)
        | TOKEN_INTEGER value => Some (JSON_INTEGER value, rest)
        | TOKEN_REAL lexeme => Some (JSON_REAL lexeme, rest)
        | TOKEN_TRUE => Some (JSON_TRUE, rest)
        | TOKEN_FALSE => Some (JSON_FALSE, rest)
        | TOKEN_NULL => Some (JSON_NULL, rest)
        | TOKEN_CHAR c =>
            if Ascii.eqb c "{" then
              let (tok1, rest1) := lex_scan flags rest in
              if is_char tok1 "}" then Some (JSON_OBJECT [], rest1)
              else parse_members fuel' flags (S depth) [] tok1 rest1
            else if Ascii.eqb c "[" then
              let (tok1, rest1) := lex_scan flags rest in
              if is_char tok1 "]" then Some (JSON_ARRAY [], rest1)
              else parse_elements fuel' flags (S depth) [] tok1 rest1
            else None
        | TOKEN_INVALID | TOKEN_EOF => None
        end
  end
with parse_elements (fuel : nat) (flags : Z) (depth : nat) (array : list json)
    (tok : token) (rest : string) : option (json * string) :=
  match fuel with
  | O => None
  | S fuel' =>
      match parse_value fuel' flags depth tok rest with
      | None => None
      | Some (elem, rest1) =>
          let array := array ++ [elem] in
          let (tok2, rest2) := lex_scan flags rest1 in
          if is_char tok2 "," then
            let (tok3, rest3) := lex_scan flags rest2 in
            parse_elements fuel' flags depth array tok3 rest3
          else if is_char tok2 "]" then Some (JSON_ARRAY array, rest2)
          else None
      end
  end
with parse_members (fuel : nat) (flags : Z) (depth : nat)
    (object : list (string * json)) (tok : token) (rest : string)
    : option (json * string) :=
  match fuel with
  | O => None
  | S fuel' =>
      match tok with
      | TOKEN_STRING key =>
          if has_nul key then None
          else if has_flag flags JSON_REJECT_DUPLICATES && has_key object key
          then None
          else
            let (tok1, rest1) := lex_scan flags rest in
            if negb (is_char tok1 ":") then None
            else
              let (tok2, rest2) := lex_scan flags rest1 in
              match parse_value fuel' flags depth tok2 rest2 with
              | None => None
              | Some (value, rest3) =>
                  let object := set_member object key value in
                  let (tok4, rest4) := lex_scan flags rest3 in
                  if is_char tok4 "," then
                    let (tok5, rest5) := lex_scan flags rest4 in
                    parse_members fuel' flags depth object tok5 rest5
                  else if is_char tok4 "}" then
                    Some (JSON_OBJECT object, rest4)
                  else None
              end
      | _ => None
      end
  end.

Definition is_eof (tok : token) : bool :=
  match tok with TOKEN_EOF => true | _ => false end.

(** [parse_json]: the text must start an array or an object unless
    JSON_DECODE_ANY is set, and nothing may follow the value unless
    JSON_DISABLE_EOF_CHECK is set. *)
Definition parse_json (flags : Z) (input : string) : option json :=
  let (tok, rest) := lex_scan flags input in
  if negb (has_flag flags JSON_DECODE_ANY)
     && negb (is_char tok "[" || is_char tok "{") then None
  else
    match parse_value (2 * String.length input + 2) flags 0 tok rest with
    | None => None
    | Some (result, rest1) =>
        if has_flag flags JSON_DISABLE_EOF_CHECK then Some result
        else if is_eof (fst (lex_scan flags rest1)) then Some result
        else None
    end.

Definition hex_digit (n : nat) : ascii :=
  if (n <? 10)%nat then ascii_of_nat (48 + n) else ascii_of_nat (55 + n).

Definition dump_char (c : ascii) : string :=
  let n := nat_of_ascii c in
  if Ascii.eqb c "034" then String "\" (String "034" "")
  else if Ascii.eqb c "\" then "\\"
  else if (n =? 8)%nat then "\b"
  else if (n =? 12)%nat then "\f"
  else if (n =? 10)%nat then "\n"
  else if (n =? 13)%nat then "\r"
  else if (n =? 9)%nat then "\t"
  else if (n <? 32)%nat then
    "\u00" ++ String (hex_digit (n / 16)) (String (hex_digit (n mod 16)) "")
  else String c "".

Fixpoint dump_string_body (s : string) : string :=
  match s with
  | EmptyString => EmptyString
  | String c r => (dump_char c ++ dump_string_body r)%string
  end.

Definition dump_string (s : string) : string :=
  String "034" (dump_string_body s ++ String "034" "").

Fixpoint do_dump (j : json) : string :=
  match j with
  | JSON_NULL => "null"
  | JSON_TRUE => "true"
  | JSON_FALSE => "false"
  | JSON_INTEGER value => NilEmpty.string_of_int (Z.to_int value)
  | JSON_REAL lexeme => lexeme
  | JSON_STRING value => dump_string value
  | JSON_ARRAY elements =>
      ("[" ++
      (fix dump_elements (l : list json) (first : bool) : string :=
         match l with
         | [] => ""
         | e :: r =>
             (if first then "" else ", ") ++ do_dump e ++ dump_elements r false
         end) elements true
      ++ "]")%string
  | JSON_OBJECT members =>
      ("{" ++
      (fix dump_members (l : list (string * json)) (first : bool) : string :=
         match l with
         | [] => ""
         | (k, v) :: r =>
             (if first then "" else ", ") ++ dump_string k ++ ": "
             ++ do_dump v ++ dump_members r false
         end) members true
      ++ "}")%string
  end.

Definition is_container (j : json) : bool :=
  match j with JSON_OBJECT _ | JSON_ARRAY _ => true | _ => false end.

Definition dumps (j : option json) (flags : Z) : option string :=
  match j with
  | None => None
  | Some value =>
      if has_flag flags JSON_ENCODE_ANY || is_container value
      then Some (do_dump value)
      else None
  end.

#[export] Instance jansson : Jansson := {
  json_loads := fun input flags => parse_json flags input;
  json_dumps := dumps;
  json_dumps_NULL := fun _ => eq_refl
}.

End JanssonModel.

(** ** The client registry as a transition system *)

Section Registry.

Context {api_client user_data_t : Type}.

Abbreviation handler := (api_handler api_client user_data_t).

(** The three operations [apihandler.c] exports on the client table. *)
Inductive registry_op :=
| Op_add (token : string) (client : option api_client)
| Op_get (token : string)
| Op_remove (token : string).

(** The handler after an operation; a lookup leaves it as it is. *)
Definition registry_step (a : handler) (op : registry_op) : handler :=
  match op with
  | Op_add token client => snd (api_handler_add_client a token client)
  | Op_get token => a
  | Op_remove token => snd (api_handler_remove_client a token)
  end.

(** The handlers that [api_handler_new] followed by registry operations
    can produce. *)
Inductive reachable : handler -> Prop :=
| reachable_new (ud : user_data_t) : reachable (api_handler_new ud)
| reachable_step (a : handler) (op : registry_op) :
    reachable a -> reachable (registry_step a op).

(** No token occurs twice among the keys of the client table. *)
Definition tokens_unique (a : handler) : Prop :=
  NoDup (GHashTable.keys (client_table a)).

(** A token is bound to at most one client. *)
Definition one_client_per_token (a : handler) : Prop :=
  forall token c1 c2,
    In (token, c1) (client_table a) -> In (token, c2) (client_table a) ->
    c1 = c2.

End Registry.

(** ** Response headers *)

(** The four headers [api_queue_response] adds. *)
Definition carries_fixed_headers (response : MHD_Response) : Prop :=
  MHD_get_response_header response "Content-Type" = Some "application/json" /\
  MHD_get_response_header response "Connection" = Some "close" /\
  MHD_get_response_header response "Access-Control-Allow-Origin" = Some "*" /\
  MHD_get_response_header response "X-Armadito-Api-Version"
    = Some "armadito.v0".

(** The two headers [create_std_response] adds. *)
Definition carries_std_headers (response : MHD_Response) : Prop :=
  MHD_get_response_header response "Content-Type" = Some "application/json" /\
  MHD_get_response_header response "Connection" = Some "close".

(** The response [api_queue_response] builds around a serialized payload. *)
Definition json_response (json_buff : string) : MHD_Response :=
  {| response_body := json_buff;
     response_headers :=
       [("Content-Type", "application/json"); ("Connection", "close");
        ("Access-Control-Allow-Origin", "*");
        ("X-Armadito-Api-Version", "armadito.v0")] |}.

(** The error object of a failed request, with the payload of the callback
    under the key data when there is one. *)
Definition error_500 (payload : option json) : json :=
  JSON_OBJECT
    ([("code", JSON_INTEGER 500);
      ("message",
       JSON_STRING "Request processing triggered an internal error")]
     ++ match payload with
        | Some data => [("data", data)]
        | None => []
        end).

(** The media type of a Content-Type value in the words of the
    specification: what precedes the first semicolon, the whole value when
    it has none. *)
Fixpoint media_type_before_parameters (value : string) : string :=
  match value with
  | EmptyString => EmptyString
  | String c rest =>
      if Ascii.eqb c ";" then EmptyString
      else String c (media_type_before_parameters rest)
  end.

(** ** Concrete instances for running requests *)

Module Example.

(** Method constants with one bit each. *)
#[export] Instance httpd : Httpd := {
  HTTP_METHOD_GET := 1;
  HTTP_METHOD_POST := 2
}.

(** Callbacks that answer the same whatever they are given and leave the
    handler as it is. *)
Definition constant_callbacks (check_ret ret : Z) (j_response : option json)
    : ApiCallbacks unit unit := {|
  call_check_cb := fun _ _ _ => check_ret;
  call_process_cb := fun _ a _ _ _ => (ret, j_response, a)
|}.

Definition header (name value : string) : MHD_ValueKind * string * string :=
  (MHD_HEADER_KIND, name, value).

Definition request (headers : list (MHD_ValueKind * string * string))
    : MHD_Connection :=
  {| connection_values := headers |}.

Definition a0 : api_handler unit unit := api_handler_new tt.

Definition user_agent := header "User-Agent" "curl/7.50".
Definition token := header "X-Armadito-Token" "1234".

(** The entry of /scan in the endpoint table. *)
Definition scan : api_endpoint :=
  {| path := "/scan"; accepted_methods := 2; need_token := 1;
     process_cb := scan_process_cb; check_cb := Some scan_check_cb |}.

End Example.

(** ** Notions used to state further properties *)

(** The entries of one kind a connection carries, in order. *)
Definition entries_of_kind (kind : MHD_ValueKind) (connection : MHD_Connection)
    : list (MHD_ValueKind * string * string) :=
  filter (fun entry => MHD_ValueKind_eqb (fst (fst entry)) kind)
    (connection_values connection).

(** The same connection with another value in every token header. *)
Definition with_token_value (value : string) (connection : MHD_Connection)
    : MHD_Connection :=
  {| connection_values :=
       map (fun entry : MHD_ValueKind * string * string =>
              let '(k, h, _) := entry in
              if MHD_ValueKind_eqb k MHD_HEADER_KIND
                 && MHD_str_equal_caseless h API_TOKEN_HEADER
              then (k, h, value) else entry)
         (connection_values connection) |}.

(** The paths of the endpoint table. *)
Definition api_endpoint_paths : list string :=
  ["/register"; "/unregister"; "/ping"; "/event"; "/scan"; "/status";
   "/browse"; "/version"].

(** The standard statuses with the bodies [api_handler_new] gives them. *)
Definition std_bodies : list (Z * string) :=
  [(400, JSON_400); (403, JSON_403); (404, JSON_404); (405, JSON_405);
   (415, JSON_415); (422, JSON_422)].

(** Registering a list of tokens one after the other. *)
Definition register_all {api_client user_data_t : Type}
    (a : api_handler api_client user_data_t)
    (clients : list (string * option api_client))
    : api_handler api_client user_data_t :=
  fold_left
    (fun a' entry => snd (api_handler_add_client a' (fst entry) (snd entry)))
    clients a.

(** * Properties *)

(** ** C strings *)

Lemma nat_of_ascii_inj (x y : ascii) : nat_of_ascii x = nat_of_ascii y -> x = y.
Proof.
  intros E.
  rewrite <- (ascii_nat_embedding x), <- (ascii_nat_embedding y).
  now rewrite E.
Qed.

Lemma strcmp_refl (a : string) : strcmp a a = 0.
Proof.
  induction a as [|x a IH]; simpl; [reflexivity|].
  now rewrite Ascii.eqb_refl.
Qed.

Lemma strcmp_zero (a b : string) : strcmp a b = 0 <-> a = b.
Proof.
  split; [|intros ->; apply strcmp_refl].
  revert b; induction a as [|x a IH]; intros [|y b]; simpl; intros E.
  - reflexivity.
  - lia.
  - lia.
  - destruct (Ascii.eqb x y) eqn:Exy.
    + apply Ascii.eqb_eq in Exy. subst y. f_equal. now apply IH.
    + apply Ascii.eqb_neq in Exy. exfalso. apply Exy, nat_of_ascii_inj. lia.
Qed.

Lemma strcmp_eqb (a b : string) : (strcmp a b =? 0) = String.eqb a b.
Proof.
  destruct (String.eqb a b) eqn:E.
  - apply String.eqb_eq in E. apply Z.eqb_eq. now apply strcmp_zero.
  - apply String.eqb_neq in E. apply Z.eqb_neq. now rewrite strcmp_zero.
Qed.

Lemma strncpy_strlen (s : string) : strncpy s (strlen s) = s.
Proof.
  unfold strlen. induction s as [|x s IH]; simpl; [reflexivity|].
  now rewrite IH.
Qed.

Lemma media_type_no_parameter (value : string) :
  strchr value ";" = None -> media_type_before_parameters value = value.
Proof.
  induction value as [|x s IH]; simpl; [reflexivity|].
  destruct (Ascii.eqb x ";"); [discriminate|].
  destruct (strchr s ";"); [discriminate|].
  intros _. now rewrite IH.
Qed.

Lemma media_type_strncpy (value : string) (len : nat) :
  strchr value ";" = Some len ->
  strncpy value len = media_type_before_parameters value.
Proof.
  revert len; induction value as [|x s IH]; simpl; intros len E.
  - discriminate.
  - destruct (Ascii.eqb x ";").
    + injection E as <-. reflexivity.
    + destruct (strchr s ";") as [n|]; [|discriminate].
      injection E as <-. simpl. now rewrite (IH n).
Qed.

Lemma strchr_zero_head (value : string) (c : ascii) :
  strchr value c = Some O -> exists rest, value = String c rest.
Proof.
  destruct value as [|x s]; simpl; [discriminate|].
  destruct (Ascii.eqb x c) eqn:E.
  - apply Ascii.eqb_eq in E. subst. now exists s.
  - destruct (strchr s c); discriminate.
Qed.

Section Validator.

Context {api_client user_data_t : Type} `{Httpd}.

Abbreviation handler := (api_handler api_client user_data_t).

Lemma is_NULL_false {A : Type} (p : option A) : is_NULL p = false <-> p <> None.
Proof. destruct p; simpl; split; congruence. Qed.

(** What the Content-Type gate accepts, in terms of the header value. *)
Lemma content_type_accepted (connection : MHD_Connection) :
  api_get_content_type connection = Some "application/json" <->
  exists value,
    MHD_lookup_connection_value connection MHD_HEADER_KIND
      MHD_HTTP_HEADER_CONTENT_TYPE = Some value /\
    media_type_before_parameters value = "application/json".
Proof.
  unfold api_get_content_type.
  destruct (MHD_lookup_connection_value _ _ _) as [value|].
  2:{ split; [discriminate|]. intros (v & E & _). discriminate. }
  destruct (strchr value ";") as [len|] eqn:Echr.
  - destruct len as [|n].
    + apply strchr_zero_head in Echr. destruct Echr as [rest ->]. simpl.
      split; [discriminate|]. intros (v & E & Ev). injection E as <-.
      simpl in Ev. discriminate.
    + simpl. rewrite (media_type_strncpy _ _ Echr).
      split.
      * intros E. injection E as E. now exists value.
      * intros (v & E & Ev). injection E as <-. now rewrite Ev.
  - pose proof (media_type_no_parameter _ Echr) as Ewhole.
    split.
    + intros E. injection E as E. exists value. split; [reflexivity|].
      now rewrite Ewhole.
    + intros (v & E & Ev). injection E as <-. now rewrite <- Ewhole, Ev.
Qed.

(** The token gate lets a request through when the endpoint needs no token
    or the request carries one. *)
Lemma token_gate_passes (endpoint : api_endpoint) (connection : MHD_Connection) :
  negb (need_token endpoint =? 0) && is_NULL (api_get_token connection) = false
  <-> need_token endpoint = 0 \/ api_get_token connection <> None.
Proof.
  rewrite andb_false_iff, negb_false_iff, Z.eqb_eq, is_NULL_false.
  reflexivity.
Qed.

Lemma pre_check_404 (a : handler) connection method p :
  get_api_endpoint p = None ->
  api_handler_pre_check a connection method p
  = PreCheckError 404 (response_404 a).
Proof. intros E. unfold api_handler_pre_check. now rewrite E. Qed.

Lemma pre_check_403 (a : handler) connection method p endpoint :
  get_api_endpoint p = Some endpoint ->
  api_get_user_agent connection = None ->
  api_handler_pre_check a connection method p
  = PreCheckError 403 (response_403 a).
Proof. intros E U. unfold api_handler_pre_check. now rewrite E, U. Qed.

Lemma pre_check_400 (a : handler) connection method p endpoint :
  get_api_endpoint p = Some endpoint ->
  api_get_user_agent connection <> None ->
  need_token endpoint <> 0 -> api_get_token connection = None ->
  api_handler_pre_check a connection method p
  = PreCheckError 400 (response_400 a).
Proof.
  intros E U N T. unfold api_handler_pre_check. rewrite E.
  apply is_NULL_false in U. rewrite U, T.
  apply Z.eqb_neq in N. now rewrite N.
Qed.

Lemma pre_check_405 (a : handler) connection method p endpoint :
  get_api_endpoint p = Some endpoint ->
  api_get_user_agent connection <> None ->
  need_token endpoint = 0 \/ api_get_token connection <> None ->
  Z.land (accepted_methods endpoint) method = 0 ->
  api_handler_pre_check a connection method p
  = PreCheckError 405 (response_405 a).
Proof.
  intros E U T M. unfold api_handler_pre_check. rewrite E.
  apply is_NULL_false in U. apply token_gate_passes in T.
  rewrite U, T. apply Z.eqb_eq in M. now rewrite M.
Qed.

Lemma pre_check_415 (a : handler) connection p endpoint :
  get_api_endpoint p = Some endpoint ->
  api_get_user_agent connection <> None ->
  need_token endpoint = 0 \/ api_get_token connection <> None ->
  Z.land (accepted_methods endpoint) HTTP_METHOD_POST <> 0 ->
  api_get_content_type connection <> Some "application/json" ->
  api_handler_pre_check a connection HTTP_METHOD_POST p
  = PreCheckError 415 (response_415 a).
Proof.
  intros E U T M C. unfold api_handler_pre_check. rewrite E.
  apply is_NULL_false in U. apply token_gate_passes in T.
  rewrite U, T. apply Z.eqb_neq in M. rewrite M, Z.eqb_refl.
  destruct (api_get_content_type connection) as [ct|]; [|reflexivity].
  rewrite strcmp_eqb. destruct (String.eqb ct "application/json") eqn:J.
  - apply String.eqb_eq in J. congruence.
  - reflexivity.
Qed.

Lemma pre_check_ok (a : handler) connection method p endpoint :
  get_api_endpoint p = Some endpoint ->
  api_get_user_agent connection <> None ->
  need_token endpoint = 0 \/ api_get_token connection <> None ->
  Z.land (accepted_methods endpoint) method <> 0 ->
  (method = HTTP_METHOD_POST ->
   api_get_content_type connection = Some "application/json") ->
  api_handler_pre_check a connection method p = PreCheckOk endpoint.
Proof.
  intros E U T M C. unfold api_handler_pre_check. rewrite E.
  apply is_NULL_false in U. apply token_gate_passes in T.
  rewrite U, T. apply Z.eqb_neq in M. rewrite M.
  destruct (method =? HTTP_METHOD_POST) eqn:P; [|reflexivity].
  apply Z.eqb_eq in P. rewrite (C P), strcmp_refl. reflexivity.
Qed.

(** An OK answer names the endpoint of the path, and every gate passed. *)
Lemma pre_check_ok_inv (a : handler) connection method p endpoint :
  api_handler_pre_check a connection method p = PreCheckOk endpoint ->
  get_api_endpoint p = Some endpoint /\
  api_get_user_agent connection <> None /\
  (need_token endpoint = 0 \/ api_get_token connection <> None) /\
  Z.land (accepted_methods endpoint) method <> 0 /\
  (method = HTTP_METHOD_POST ->
   api_get_content_type connection = Some "application/json").
Proof.
  unfold api_handler_pre_check.
  destruct (get_api_endpoint p) as [e|]; [|discriminate].
  destruct (is_NULL (api_get_user_agent connection)) eqn:U; [discriminate|].
  destruct (negb (need_token e =? 0) && is_NULL (api_get_token connection))
    eqn:T; [discriminate|].
  destruct (Z.land (accepted_methods e) method =? 0) eqn:M; [discriminate|].
  apply is_NULL_false in U. apply token_gate_passes in T. apply Z.eqb_neq in M.
  destruct (method =? HTTP_METHOD_POST) eqn:P.
  - destruct (api_get_content_type connection) as [ct|]; [|discriminate].
    rewrite strcmp_eqb.
    destruct (String.eqb ct "application/json") eqn:J; [|discriminate].
    apply String.eqb_eq in J. subst ct. simpl. intros Q. injection Q as <-.
    repeat split; auto.
  - apply Z.eqb_neq in P. intros Q. injection Q as <-.
    repeat split; auto. intros; contradiction.
Qed.

(** An error answer carries one of the five statuses of the gates. *)
Lemma pre_check_error_inv (a : handler) connection method p code response :
  api_handler_pre_check a connection method p = PreCheckError code response ->
  In (code, response)
    [(404, response_404 a); (403, response_403 a); (400, response_400 a);
     (405, response_405 a); (415, response_415 a)].
Proof.
  unfold api_handler_pre_check.
  repeat match goal with
         | |- context [match ?x with _ => _ end] => destruct x
         end;
    intros Q; try discriminate Q; injection Q as <- <-; simpl; auto 6.
Qed.

(** The gates in terms of what the accessors of the file answer. *)
Lemma pre_check_gates (a : handler) (connection : MHD_Connection)
    (method : Z) (p : string) :
  let r := api_handler_pre_check a connection method p in
  (get_api_endpoint p = None ->
   r = PreCheckError 404 (response_404 a)) /\
  (forall endpoint, get_api_endpoint p = Some endpoint ->
     (api_get_user_agent connection = None ->
      r = PreCheckError 403 (response_403 a)) /\
     (api_get_user_agent connection <> None ->
      need_token endpoint <> 0 -> api_get_token connection = None ->
      r = PreCheckError 400 (response_400 a)) /\
     (api_get_user_agent connection <> None ->
      need_token endpoint = 0 \/ api_get_token connection <> None ->
      Z.land (accepted_methods endpoint) method = 0 ->
      r = PreCheckError 405 (response_405 a)) /\
     (api_get_user_agent connection <> None ->
      need_token endpoint = 0 \/ api_get_token connection <> None ->
      Z.land (accepted_methods endpoint) method <> 0 ->
      method = HTTP_METHOD_POST ->
      api_get_content_type connection <> Some "application/json" ->
      r = PreCheckError 415 (response_415 a))) /\
  (pre_check_status r = MHD_HTTP_OK <->
   exists endpoint,
     get_api_endpoint p = Some endpoint /\
     api_get_user_agent connection <> None /\
     (need_token endpoint = 0 \/ api_get_token connection <> None) /\
     Z.land (accepted_methods endpoint) method <> 0 /\
     (method = HTTP_METHOD_POST ->
      api_get_content_type connection = Some "application/json")).
Proof.
  cbv zeta. split; [apply pre_check_404|]. split.
  - intros endpoint E. repeat split.
    + intros U. eapply pre_check_403; eassumption.
    + intros U N T. eapply pre_check_400; eassumption.
    + intros U T M. eapply pre_check_405; eassumption.
    + intros U T M -> C. eapply pre_check_415; eassumption.
  - split.
    + destruct (api_handler_pre_check a connection method p)
        as [endpoint|code response] eqn:R; simpl.
      * intros _. exists endpoint. eapply pre_check_ok_inv; eassumption.
      * intros ->. apply pre_check_error_inv in R. simpl in R.
        unfold MHD_HTTP_OK in R. intuition congruence.
    + intros (endpoint & E & U & T & M & C).
      now rewrite (pre_check_ok a connection method p endpoint).
Qed.

(** C1: the gates of the validator apply in the order path, User-Agent
    header, X-Armadito-Token header, method, Content-Type header; the first
    one that fails gives the status and the standard response (404, 403,
    400, 405, 415), the token gate whatever the method is, and the
    validator answers OK exactly when every gate passes.  The headers are
    the ones the connection carries. *)
Theorem pre_check_gates_in_order (a : handler) (connection : MHD_Connection)
    (method : Z) (p : string) :
  let r := api_handler_pre_check a connection method p in
  let user_agent :=
    MHD_lookup_connection_value connection MHD_HEADER_KIND "User-Agent" in
  let token :=
    MHD_lookup_connection_value connection MHD_HEADER_KIND
      "X-Armadito-Token" in
  let content_type :=
    MHD_lookup_connection_value connection MHD_HEADER_KIND "Content-Type" in
  let json_content_type :=
    exists value,
      content_type = Some value /\
      media_type_before_parameters value = "application/json" in
  (get_api_endpoint p = None ->
   r = PreCheckError 404 (response_404 a)) /\
  (forall endpoint, get_api_endpoint p = Some endpoint ->
     (user_agent = None ->
      r = PreCheckError 403 (response_403 a)) /\
     (user_agent <> None ->
      need_token endpoint <> 0 -> token = None ->
      r = PreCheckError 400 (response_400 a)) /\
     (user_agent <> None ->
      need_token endpoint = 0 \/ token <> None ->
      Z.land (accepted_methods endpoint) method = 0 ->
      r = PreCheckError 405 (response_405 a)) /\
     (user_agent <> None ->
      need_token endpoint = 0 \/ token <> None ->
      Z.land (accepted_methods endpoint) method <> 0 ->
      method = HTTP_METHOD_POST ->
      ~ json_content_type ->
      r = PreCheckError 415 (response_415 a))) /\
  (pre_check_status r = MHD_HTTP_OK <->
   exists endpoint,
     get_api_endpoint p = Some endpoint /\
     user_agent <> None /\
     (need_token endpoint = 0 \/ token <> None) /\
     Z.land (accepted_methods endpoint) method <> 0 /\
     (method = HTTP_METHOD_POST -> json_content_type)).
Proof.
  cbv zeta.
  destruct (pre_check_gates a connection method p) as (G404 & G & Gok).
  split; [exact G404|]. split.
  - intros endpoint E. destruct (G endpoint E) as (G403 & G400 & G405 & G415).
    refine (conj G403 (conj G400 (conj G405 _))).
    intros U T M P C. apply G415; auto.
    intros A. apply C. now apply content_type_accepted.
  - rewrite Gok. split.
    + intros (endpoint & E & U & T & M & C). exists endpoint.
      refine (conj E (conj U (conj T (conj M _)))).
      intros P. now apply content_type_accepted, C.
    + intros (endpoint & E & U & T & M & C). exists endpoint.
      refine (conj E (conj U (conj T (conj M _)))).
      intros P. now apply content_type_accepted, C.
Qed.

(** C2: for a POST that reaches the Content-Type gate the validator
    answers OK exactly when the Content-Type header is present and what
    precedes its first semicolon (the whole value when it has none) is
    application/json, and 415 otherwise; application/json with a charset
    parameter passes, text/plain and a missing header give 415. *)
Theorem content_type_gate (a : handler) (connection : MHD_Connection)
    (p : string) (endpoint : api_endpoint) :
  get_api_endpoint p = Some endpoint ->
  api_get_user_agent connection <> None ->
  need_token endpoint = 0 \/ api_get_token connection <> None ->
  Z.land (accepted_methods endpoint) HTTP_METHOD_POST <> 0 ->
  let r := api_handler_pre_check a connection HTTP_METHOD_POST p in
  let content_type :=
    MHD_lookup_connection_value connection MHD_HEADER_KIND "Content-Type" in
  let accepted :=
    exists value,
      content_type = Some value /\
      media_type_before_parameters value = "application/json" in
  (pre_check_status r = MHD_HTTP_OK <-> accepted) /\
  (accepted -> r = PreCheckOk endpoint) /\
  (~ accepted -> r = PreCheckError 415 (response_415 a)) /\
  (content_type = Some "application/json; charset=utf-8" ->
   r = PreCheckOk endpoint) /\
  (content_type = Some "text/plain" ->
   r = PreCheckError 415 (response_415 a)) /\
  (content_type = None -> r = PreCheckError 415 (response_415 a)).
Proof.
  intros E U T M. cbv zeta.
  assert (Hok : (exists value,
             MHD_lookup_connection_value connection MHD_HEADER_KIND
               "Content-Type" = Some value /\
             media_type_before_parameters value = "application/json") ->
          api_handler_pre_check a connection HTTP_METHOD_POST p
          = PreCheckOk endpoint).
  { intros A. apply pre_check_ok; auto. intros _.
    now apply content_type_accepted. }
  assert (Hko : ~ (exists value,
             MHD_lookup_connection_value connection MHD_HEADER_KIND
               "Content-Type" = Some value /\
             media_type_before_parameters value = "application/json") ->
          api_handler_pre_check a connection HTTP_METHOD_POST p
          = PreCheckError 415 (response_415 a)).
  { intros A. eapply pre_check_415; eauto.
    intros C. apply A. now apply content_type_accepted. }
  split; [|split; [exact Hok|split; [exact Hko|]]].
  - split.
    + intros S.
      destruct (api_get_content_type connection) as [ct|] eqn:C.
      * destruct (string_dec ct "application/json") as [->|N].
        -- now apply content_type_accepted.
        -- rewrite (pre_check_415 a connection p endpoint) in S;
             [discriminate S|auto..]. congruence.
      * rewrite (pre_check_415 a connection p endpoint) in S;
          [discriminate S|auto..]. congruence.
    + intros A. now rewrite (Hok A).
  - repeat split.
    + intros C. apply Hok. eexists. split; [exact C|reflexivity].
    + intros C. apply Hko. intros (v & Ev & Em). rewrite C in Ev.
      injection Ev as <-. discriminate Em.
    + intros C. apply Hko. intros (v & Ev & _). rewrite C in Ev.
      discriminate Ev.
Qed.

End Validator.

Section Dispatcher.

Context {api_client user_data_t : Type}.
Context `{Httpd} `{Jansson} `{ApiCallbacks api_client user_data_t}.

Abbreviation handler := (api_handler api_client user_data_t).

(** ** The envelope builder *)

Lemma api_queue_response_built connection http_status j_response json_buff :
  json_dumps j_response 0 = Some json_buff ->
  api_queue_response connection http_status j_response
  = Queued http_status (json_response json_buff).
Proof.
  intros E. unfold api_queue_response. rewrite E.
  unfold MHD_queue_response, MHD_create_response_from_buffer,
    MHD_add_response_header, json_response. simpl.
  now rewrite strncpy_strlen.
Qed.

Lemma api_queue_response_inv connection http_status j_response status response :
  api_queue_response connection http_status j_response = Queued status response ->
  status = http_status /\
  exists json_buff,
    json_dumps j_response 0 = Some json_buff /\
    response = json_response json_buff.
Proof.
  destruct (json_dumps j_response 0) as [buf|] eqn:E.
  - rewrite (api_queue_response_built _ _ _ _ E). intros Q.
    injection Q as <- <-. split; [reflexivity|]. now exists buf.
  - unfold api_queue_response. rewrite E. discriminate.
Qed.

Lemma json_response_fixed_headers (json_buff : string) :
  carries_fixed_headers (json_response json_buff).
Proof. repeat split. Qed.

Lemma fixed_headers_std (response : MHD_Response) :
  carries_fixed_headers response -> carries_std_headers response.
Proof. intros (C & K & _). now split. Qed.

Lemma api_queue_response_500_envelope connection j_response :
  api_queue_response_500 connection j_response
  = api_queue_response connection 500 (Some (error_500 j_response)).
Proof. destruct j_response; reflexivity. Qed.

(** ** The dispatcher *)

Ltac serve_stages :=
  unfold api_handler_serve, api_parse_json_request;
  let endpoint := fresh "endpoint" in
  destruct (api_handler_pre_check _ _ _ _) as [endpoint|?code ?resp] eqn:?Epre;
  cbn [served_calls served_outcome served_handler];
  [ destruct ((_ =? HTTP_METHOD_POST) && negb (_ =? 0)) eqn:?Eparse;
    [ destruct (json_loads _ _) as [?j|] eqn:?Eloads | ];
    cbn [andb is_NULL served_calls served_outcome served_handler];
    try (destruct (check_cb endpoint) as [?cb|] eqn:?Echeck;
         [ destruct (call_check_cb _ _ _ =? 0) eqn:?Eret_check | ];
         cbn [negb served_calls served_outcome served_handler];
         try (destruct (call_process_cb _ _ _ _ _) as [[?ret ?j_response] ?a']
                eqn:?Ecall;
              destruct (ret =? 0) eqn:?Eret;
              cbn [negb served_calls served_outcome served_handler]))
  | ].

(** A request whose process callback was called: the callback is the one of
    the endpoint, it was given the parsed body, and its answer decides
    between the two builders. *)
Lemma serve_process_called (a : handler) connection method p post_data
    post_data_size cb j_request :
  In (Call_process_cb cb j_request)
     (served_calls
        (api_handler_serve a connection method p post_data post_data_size)) ->
  exists endpoint,
    api_handler_pre_check a connection method p = PreCheckOk endpoint /\
    cb = process_cb endpoint /\
    forall ret j_response a',
      call_process_cb cb a connection j_request (user_data a)
      = (ret, j_response, a') ->
      served_outcome
        (api_handler_serve a connection method p post_data post_data_size)
      = if negb (ret =? 0) then api_queue_response_500 connection j_response
        else api_queue_response connection MHD_HTTP_OK j_response.
Proof.
  serve_stages; simpl; intros I.
  all: repeat match goal with
         | I : _ \/ _ |- _ => destruct I as [I|I]
         | I : False |- _ => contradiction
         | I : Call_json_loads _ _ = _ |- _ => discriminate I
         | I : Call_check_cb _ _ = _ |- _ => discriminate I
         | I : Call_process_cb _ _ = Call_process_cb _ _ |- _ =>
             injection I as <- <-
         end.
  all: exists endpoint; repeat split; try reflexivity.
  all: intros r jr ar Q; rewrite Ecall in Q; injection Q as <- <- <-.
  all: now rewrite Eret.
Qed.

(** When the decoder rejects the body of a POST, the standard 400 response
    is queued and no callback is called. *)
Lemma serve_parse_failure (a : handler) connection p post_data post_data_size
    endpoint :
  api_handler_pre_check a connection HTTP_METHOD_POST p = PreCheckOk endpoint ->
  post_data_size <> 0 ->
  json_loads post_data post_data_size = None ->
  api_handler_serve a connection HTTP_METHOD_POST p post_data post_data_size
  = {| served_outcome := Queued 400 (response_400 a);
       served_handler := a;
       served_calls := [Call_json_loads post_data post_data_size] |}.
Proof.
  intros E S L. unfold api_handler_serve, api_parse_json_request.
  rewrite E, Z.eqb_refl. apply Z.eqb_neq in S. rewrite S. simpl.
  rewrite L. reflexivity.
Qed.

(** The headers each builder puts on a response: [api_queue_response] the
    four fixed ones, [create_std_response] Content-Type and Connection. *)
Lemma responses_carry_headers (ud : user_data_t)
    (table : GHashTable.t (option api_client)) (connection : MHD_Connection) :
  let a := set_client_table (api_handler_new ud) table in
  (forall http_status j_response status response,
     api_queue_response connection http_status j_response
     = Queued status response ->
     status = http_status /\ carries_fixed_headers response) /\
  Forall (fun std => carries_std_headers (fst std) /\
                     response_body (fst std) = snd std)
    [(response_400 a, JSON_400); (response_403 a, JSON_403);
     (response_404 a, JSON_404); (response_405 a, JSON_405);
     (response_415 a, JSON_415); (response_422 a, JSON_422)] /\
  (forall method p post_data post_data_size status response,
     served_outcome
       (api_handler_serve a connection method p post_data post_data_size)
     = Queued status response ->
     carries_std_headers response /\
     (status = 200 \/ status = 500 -> carries_fixed_headers response)).
Proof.
  cbv zeta.
  assert (B : forall http_status j_response status response,
             api_queue_response connection http_status j_response
             = Queued status response ->
             status = http_status /\ carries_fixed_headers response).
  { intros st j status response Q. apply api_queue_response_inv in Q.
    destruct Q as (-> & buf & _ & ->). split; [reflexivity|].
    apply json_response_fixed_headers. }
  split; [exact B|]. split.
  - repeat constructor; try apply strncpy_strlen.
  - intros method p post_data post_data_size status response.
    serve_stages; unfold MHD_queue_response; intros Q.
    all: try rewrite api_queue_response_500_envelope in Q.
    all: try (apply B in Q; destruct Q as [_ Q]; split;
              [now apply fixed_headers_std | intros _; exact Q]).
    all: injection Q as <- <-.
    all: try (split; [split; reflexivity | intros [D|D]; discriminate D]).
    apply pre_check_error_inv in Epre. simpl in Epre.
    repeat (destruct Epre as [Epre|Epre];
            [injection Epre as <- <-; split;
             [split; reflexivity | intros [D|D]; discriminate D] |]).
    contradiction.
Qed.

(** C4, as the code has it: when the process callback reports failure the
    dispatcher hands status 500 and the error object to the envelope
    builder, the object having the payload of the callback under data
    exactly when the callback produced one; when it reports success the
    dispatcher hands status 200 and the payload of the callback to the
    envelope builder as it is.  The builder queues the status with the
    serialized value when the encoder returns one and faults when it
    returns NULL, as it does for a NULL payload; where the encoder accepts
    every object, a failure always ends in the 500 response. *)
Theorem process_result_envelope (a : handler) (connection : MHD_Connection)
    (method : Z) (p post_data : string) (post_data_size : Z)
    (cb : process_cb_t) (j_request : option json)
    (ret : Z) (j_response : option json) (a' : handler) :
  let s := api_handler_serve a connection method p post_data post_data_size in
  let error_object :=
    JSON_OBJECT
      ([("code", JSON_INTEGER 500);
        ("message",
         JSON_STRING "Request processing triggered an internal error")]
       ++ match j_response with
          | Some payload => [("data", payload)]
          | None => []
          end) in
  In (Call_process_cb cb j_request) (served_calls s) ->
  call_process_cb cb a connection j_request (user_data a)
  = (ret, j_response, a') ->
  (ret <> 0 ->
   served_outcome s
   = match json_dumps (Some error_object) 0 with
     | Some json_buff => Queued 500 (json_response json_buff)
     | None => Fault_null_dereference
     end) /\
  (ret = 0 ->
   served_outcome s
   = match json_dumps j_response 0 with
     | Some json_buff => Queued 200 (json_response json_buff)
     | None => Fault_null_dereference
     end) /\
  ((forall members, json_dumps (Some (JSON_OBJECT members)) 0 <> None) ->
   ret <> 0 ->
   exists json_buff,
     json_dumps (Some error_object) 0 = Some json_buff /\
     served_outcome s = Queued 500 (json_response json_buff)).
Proof.
  cbv zeta. intros I C.
  apply serve_process_called in I.
  destruct I as (endpoint & _ & _ & O). rewrite (O _ _ _ C).
  assert (B : forall status j,
             api_queue_response connection status j
             = match json_dumps j 0 with
               | Some json_buff => Queued status (json_response json_buff)
               | None => Fault_null_dereference
               end).
  { intros status j. destruct (json_dumps j 0) as [buf|] eqn:D.
    - now apply api_queue_response_built.
    - unfold api_queue_response. now rewrite D. }
  split; [|split].
  - intros N. apply Z.eqb_neq in N. rewrite N. simpl.
    rewrite api_queue_response_500_envelope. apply B.
  - intros ->. simpl. apply B.
  - intros A N. apply Z.eqb_neq in N. rewrite N. simpl.
    rewrite api_queue_response_500_envelope, B.
    destruct (json_dumps (Some (error_500 j_response)) 0) as [buf|] eqn:D.
    + exists buf. split; [exact D|reflexivity].
    + exfalso. now apply (A _ D).
Qed.


(** C10: [api_queue_response] serializes its payload and takes the length
    of the result with no test for NULL, so it faults on a NULL payload;
    when the process callback reports success the dispatcher passes its
    payload on as it is, so the success path ends in a queued response only
    if the callback produced a payload. *)
Theorem success_requires_payload (a : handler) (connection : MHD_Connection)
    (method : Z) (p post_data : string) (post_data_size : Z)
    (cb : process_cb_t) (j_request j_response : option json) (a' : handler) :
  let s := api_handler_serve a connection method p post_data post_data_size in
  In (Call_process_cb cb j_request) (served_calls s) ->
  call_process_cb cb a connection j_request (user_data a)
  = (0, j_response, a') ->
  (forall http_status,
     api_queue_response connection http_status None = Fault_null_dereference) /\
  (j_response = None -> served_outcome s = Fault_null_dereference) /\
  (served_outcome s <> Fault_null_dereference -> j_response <> None).
Proof.
  cbv zeta. intros I C.
  assert (F : forall http_status,
             api_queue_response connection http_status None
             = Fault_null_dereference).
  { intros st. unfold api_queue_response. now rewrite json_dumps_NULL. }
  apply serve_process_called in I.
  destruct I as (endpoint & _ & _ & O). rewrite (O _ _ _ C). simpl.
  split; [exact F|]. split.
  - intros ->. apply F.
  - intros S ->. apply S, F.
Qed.

End Dispatcher.

(** ** The hash table *)

Section GHashTableFacts.

Context {V : Type}.

Lemma contains_keys (table : GHashTable.t V) (key : string) :
  g_hash_table_contains table key = true <-> In key (GHashTable.keys table).
Proof.
  induction table as [|[k v] rest IH]; simpl.
  - split; [discriminate|contradiction].
  - destruct (String.eqb k key) eqn:E.
    + apply String.eqb_eq in E. tauto.
    + apply String.eqb_neq in E. rewrite IH. tauto.
Qed.

Lemma not_contains_keys (table : GHashTable.t V) (key : string) :
  g_hash_table_contains table key = false <-> ~ In key (GHashTable.keys table).
Proof.
  rewrite <- contains_keys.
  destruct (g_hash_table_contains table key); split; congruence.
Qed.

Lemma contains_insert (table : GHashTable.t V) (key : string) (value : V) :
  g_hash_table_contains (g_hash_table_insert table key value) key = true.
Proof.
  induction table as [|[k v] rest IH]; simpl.
  - now rewrite String.eqb_refl.
  - destruct (String.eqb k key) eqn:E; simpl; now rewrite E.
Qed.

Lemma keys_insert (table : GHashTable.t V) (key : string) (value : V) :
  GHashTable.keys (g_hash_table_insert table key value)
  = if g_hash_table_contains table key then GHashTable.keys table
    else GHashTable.keys table ++ [key].
Proof.
  induction table as [|[k v] rest IH]; simpl; [reflexivity|].
  destruct (String.eqb k key) eqn:E; simpl; [reflexivity|].
  fold (GHashTable.keys (g_hash_table_insert rest key value)).
  rewrite IH. now destruct (g_hash_table_contains rest key).
Qed.

Lemma remove_absent (table : GHashTable.t V) (key : string) :
  g_hash_table_contains table key = false ->
  g_hash_table_remove table key = (false, table).
Proof.
  induction table as [|[k v] rest IH]; simpl; [reflexivity|].
  destruct (String.eqb k key); [discriminate|].
  intros C. now rewrite (IH C).
Qed.

Lemma remove_present (table : GHashTable.t V) (key : string) :
  g_hash_table_contains table key = true ->
  fst (g_hash_table_remove table key) = true.
Proof.
  induction table as [|[k v] rest IH]; simpl; [discriminate|].
  destruct (String.eqb k key); [reflexivity|].
  intros C. specialize (IH C).
  now destruct (g_hash_table_remove rest key).
Qed.

Lemma keys_remove_incl (table : GHashTable.t V) (key other : string) :
  In other (GHashTable.keys (snd (g_hash_table_remove table key))) ->
  In other (GHashTable.keys table).
Proof.
  induction table as [|[k v] rest IH]; simpl; [tauto|].
  destruct (String.eqb k key); simpl; [tauto|].
  destruct (g_hash_table_remove rest key) as [found rest'].
  simpl in *. tauto.
Qed.

Lemma keys_remove_NoDup (table : GHashTable.t V) (key : string) :
  NoDup (GHashTable.keys table) ->
  NoDup (GHashTable.keys (snd (g_hash_table_remove table key))).
Proof.
  induction table as [|[k v] rest IH]; simpl; [auto|].
  intros N. apply NoDup_cons_iff in N. destruct N as [Nk N].
  destruct (String.eqb k key); simpl; [exact N|].
  pose proof (keys_remove_incl rest key k) as I.
  specialize (IH N).
  destruct (g_hash_table_remove rest key) as [found rest'].
  simpl in *. constructor; tauto.
Qed.

Lemma contains_remove (table : GHashTable.t V) (key : string) :
  NoDup (GHashTable.keys table) ->
  g_hash_table_contains (snd (g_hash_table_remove table key)) key = false.
Proof.
  induction table as [|[k v] rest IH]; simpl; [reflexivity|].
  intros N. apply NoDup_cons_iff in N. destruct N as [Nk N].
  destruct (String.eqb k key) eqn:E; simpl.
  - apply String.eqb_eq in E. subst k. now apply not_contains_keys.
  - specialize (IH N).
    destruct (g_hash_table_remove rest key) as [found rest'].
    simpl in *. now rewrite E.
Qed.

Lemma contains_remove_other (table : GHashTable.t V) (key other : string) :
  other <> key ->
  g_hash_table_contains (snd (g_hash_table_remove table key)) other
  = g_hash_table_contains table other.
Proof.
  intros D. induction table as [|[k v] rest IH]; simpl; [reflexivity|].
  destruct (String.eqb k key) eqn:E; simpl.
  - apply String.eqb_eq in E. subst k.
    apply String.eqb_neq in D. rewrite String.eqb_sym in D. now rewrite D.
  - destruct (g_hash_table_remove rest key) as [found rest'].
    simpl in *. now rewrite IH.
Qed.

Lemma keys_unique_values (table : GHashTable.t V) (key : string) (v1 v2 : V) :
  NoDup (GHashTable.keys table) ->
  In (key, v1) table -> In (key, v2) table -> v1 = v2.
Proof.
  induction table as [|[k v] rest IH]; simpl; [contradiction|].
  intros N. apply NoDup_cons_iff in N. destruct N as [Nk N].
  assert (K : forall x, In (k, x) rest -> False).
  { intros x I. apply Nk. apply (in_map fst) in I. exact I. }
  intros [E1|I1] [E2|I2].
  - congruence.
  - injection E1 as -> ->. now apply K in I2.
  - injection E2 as -> ->. now apply K in I1.
  - now apply IH.
Qed.

End GHashTableFacts.

Section GHashTableLookup.

Context {V : Type}.

Lemma lookup_absent (table : GHashTable.t (option V)) (key : string) :
  g_hash_table_contains table key = false ->
  g_hash_table_lookup table key = None.
Proof.
  induction table as [|[k v] rest IH]; simpl; [reflexivity|].
  destruct (String.eqb k key); [discriminate|exact IH].
Qed.

Lemma lookup_insert_same (table : GHashTable.t (option V)) (key : string)
    (value : option V) :
  g_hash_table_lookup (g_hash_table_insert table key value) key = value.
Proof.
  induction table as [|[k v] rest IH]; simpl.
  - now rewrite String.eqb_refl.
  - destruct (String.eqb k key) eqn:E; simpl; now rewrite E.
Qed.

Lemma lookup_insert_other (table : GHashTable.t (option V))
    (key other : string) (value : option V) :
  other <> key ->
  g_hash_table_lookup (g_hash_table_insert table key value) other
  = g_hash_table_lookup table other.
Proof.
  intros D. apply String.eqb_neq in D. rewrite String.eqb_sym in D.
  induction table as [|[k v] rest IH]; simpl.
  - now rewrite D.
  - destruct (String.eqb k key) eqn:E; simpl.
    + apply String.eqb_eq in E. subst k. now rewrite D.
    + now rewrite IH.
Qed.

Lemma lookup_remove_other (table : GHashTable.t (option V))
    (key other : string) :
  other <> key ->
  g_hash_table_lookup (snd (g_hash_table_remove table key)) other
  = g_hash_table_lookup table other.
Proof.
  intros D. apply String.eqb_neq in D. rewrite String.eqb_sym in D.
  induction table as [|[k v] rest IH]; simpl; [reflexivity|].
  destruct (String.eqb k key) eqn:E; simpl.
  - apply String.eqb_eq in E. subst k. now rewrite D.
  - destruct (g_hash_table_remove rest key) as [found rest'].
    simpl in *. now rewrite IH.
Qed.

End GHashTableLookup.

(** ** The client registry *)

Section RegistryProperties.

Context {api_client user_data_t : Type}.

Abbreviation handler := (api_handler api_client user_data_t).

Lemma tokens_unique_new (ud : user_data_t) :
  tokens_unique (api_handler_new (api_client := api_client) ud).
Proof. constructor. Qed.

Lemma tokens_unique_step (a : handler) (op : registry_op) :
  tokens_unique a -> tokens_unique (registry_step a op).
Proof.
  unfold tokens_unique. intros N. destruct op as [token client|token|token]; simpl.
  - unfold api_handler_add_client.
    destruct (g_hash_table_contains (client_table a) token) eqn:C; simpl; auto.
    rewrite keys_insert, C.
    apply NoDup_app; auto.
    + repeat constructor. simpl. tauto.
    + intros x I [<-|[]]. now apply not_contains_keys in C.
  - exact N.
  - unfold api_handler_remove_client.
    pose proof (keys_remove_NoDup (client_table a) token N) as R.
    destruct (g_hash_table_remove (client_table a) token) as [found table].
    destruct found; simpl; auto.
Qed.

Lemma reachable_tokens_unique (a : handler) : reachable a -> tokens_unique a.
Proof.
  induction 1 as [ud|a op _ IH].
  - apply tokens_unique_new.
  - now apply tokens_unique_step.
Qed.

Lemma tokens_unique_one_client (a : handler) :
  tokens_unique a -> one_client_per_token a.
Proof.
  intros N token c1 c2. now apply keys_unique_values.
Qed.

(** C5: adding a token that is present reports failure and leaves the
    handler as it was, so a lookup still gives the client it gave before;
    adding a token that is absent reports success, after which the token is
    present and a lookup gives the new client, the other tokens being
    unchanged. *)
Theorem add_client_present_or_absent (a : handler) (token : string)
    (client : option api_client) :
  let r := api_handler_add_client a token client in
  (g_hash_table_contains (client_table a) token = true ->
   r = (1, a) /\
   api_handler_get_client (snd r) token = api_handler_get_client a token) /\
  (g_hash_table_contains (client_table a) token = false ->
   fst r = 0 /\
   g_hash_table_contains (client_table (snd r)) token = true /\
   api_handler_get_client (snd r) token = client /\
   forall other, other <> token ->
     api_handler_get_client (snd r) other = api_handler_get_client a other).
Proof.
  cbv zeta. unfold api_handler_add_client, api_handler_get_client.
  destruct (g_hash_table_contains (client_table a) token) eqn:C.
  - split; [auto|discriminate].
  - split; [discriminate|]. intros _. simpl. repeat split.
    + apply contains_insert.
    + apply lookup_insert_same.
    + intros other D. now apply lookup_insert_other.
Qed.

(** C6: removing a token that is absent reports failure and leaves the
    handler as it was; removing a token that is present reports success,
    after which the token is absent, a lookup of it gives NULL and the
    other tokens are unchanged; a lookup changes nothing and gives NULL for
    a token that is not registered. *)
Theorem remove_and_get_client (a : handler) (token : string) :
  reachable a ->
  let r := api_handler_remove_client a token in
  (g_hash_table_contains (client_table a) token = false -> r = (1, a)) /\
  (g_hash_table_contains (client_table a) token = true ->
   fst r = 0 /\
   g_hash_table_contains (client_table (snd r)) token = false /\
   api_handler_get_client (snd r) token = None /\
   forall other, other <> token ->
     g_hash_table_contains (client_table (snd r)) other
     = g_hash_table_contains (client_table a) other /\
     api_handler_get_client (snd r) other = api_handler_get_client a other) /\
  (g_hash_table_contains (client_table a) token = false ->
   api_handler_get_client a token = None) /\
  registry_step a (Op_get token) = a.
Proof.
  intros R. apply reachable_tokens_unique in R. unfold tokens_unique in R.
  cbv zeta. unfold api_handler_remove_client, api_handler_get_client.
  split; [|split; [|split]].
  - intros C. now rewrite (remove_absent _ _ C).
  - intros C.
    pose proof (remove_present _ _ C) as F.
    pose proof (contains_remove (client_table a) token R) as G.
    pose proof (contains_remove_other (client_table a) token) as O.
    pose proof (lookup_remove_other (client_table a) token) as L.
    destruct (g_hash_table_remove (client_table a) token) as [found table].
    simpl in *. subst found. simpl. repeat split; auto.
    now apply lookup_absent.
  - apply lookup_absent.
  - reflexivity.
Qed.

(** C8: in every handler reached from [api_handler_new] by add, get and
    remove no token occurs twice in the client table, so a token has at
    most one client; each of the three operations keeps it so; and adding
    a token that is present leaves the table as it is. *)
Theorem registry_one_client_per_token (a : handler) :
  reachable a ->
  tokens_unique a /\ one_client_per_token a /\
  (forall op,
     tokens_unique (registry_step a op) /\
     one_client_per_token (registry_step a op)) /\
  (forall token client,
     g_hash_table_contains (client_table a) token = true ->
     client_table (snd (api_handler_add_client a token client))
     = client_table a).
Proof.
  intros R. pose proof (reachable_tokens_unique a R) as N.
  split; [exact N|]. split; [now apply tokens_unique_one_client|]. split.
  - intros op. pose proof (tokens_unique_step a op N) as S.
    split; [exact S|now apply tokens_unique_one_client].
  - intros token client C. unfold api_handler_add_client. now rewrite C.
Qed.

End RegistryProperties.

(** ** The statements at concrete requests *)

Import Example.

(** GET /scan without a token: the token gate answers before the method
    gate. *)
Lemma pre_check_gates_in_order_witness :
  api_handler_pre_check a0 (request [user_agent]) 1 "/scan"
  = PreCheckError 400 (response_400 a0).
Proof.
  apply (proj2 (pre_check_gates_in_order a0 (request [user_agent]) 1 "/scan"))
    with (endpoint := scan).
  - reflexivity.
  - discriminate.
  - discriminate.
  - reflexivity.
Defined.

(** POST /scan with a charset parameter after the media type. *)
Lemma content_type_gate_witness :
  let connection :=
    request [user_agent; token;
             header "Content-Type" "application/json; charset=utf-8"] in
  api_handler_pre_check a0 connection 2 "/scan" = PreCheckOk scan.
Proof.
  cbv zeta.
  refine (proj1 (proj2 (proj2 (proj2
    (content_type_gate a0 _ "/scan" scan _ _ _ _)))) _).
  - reflexivity.
  - discriminate.
  - right. discriminate.
  - discriminate.
  - reflexivity.
Defined.

(** C3 at GET /nowhere: the dispatcher queues the pre-built 404 response,
    which carries Content-Type and Connection and nothing else, so it has
    neither the Access-Control-Allow-Origin nor the X-Armadito-Api-Version
    header; none of the six pre-built responses has them, while a response
    built by [api_queue_response] for the same status carries all four. *)
Theorem std_error_response_lacks_fixed_headers :
  let connection := request [user_agent] in
  let s :=
    @api_handler_serve unit unit httpd JanssonModel.jansson
      (constant_callbacks 0 0 None) a0 connection 1 "/nowhere" "" 0 in
  served_outcome s = Queued 404 (response_404 a0) /\
  response_headers (response_404 a0)
  = [("Content-Type", "application/json"); ("Connection", "close")] /\
  MHD_get_response_header (response_404 a0) "Access-Control-Allow-Origin"
  = None /\
  MHD_get_response_header (response_404 a0) "X-Armadito-Api-Version" = None /\
  ~ carries_fixed_headers (response_404 a0) /\
  Forall (fun std =>
            MHD_get_response_header std "Access-Control-Allow-Origin" = None /\
            MHD_get_response_header std "X-Armadito-Api-Version" = None)
    [response_400 a0; response_403 a0; response_404 a0; response_405 a0;
     response_415 a0; response_422 a0] /\
  exists built,
    @api_queue_response JanssonModel.jansson connection 404
      (Some (JSON_OBJECT []))
    = Queued 404 built /\
    carries_fixed_headers built.
Proof.
  cbv zeta. repeat split; try reflexivity.
  - intros (_ & _ & O & _). discriminate O.
  - repeat constructor.
  - eexists. split; [reflexivity|]. repeat split.
Qed.

(** C4 fails on the code: GET /status with a callback that reports success
    and sets no response, or sets a string, which the encoder refuses
    without JSON_ENCODE_ANY: the dispatcher faults and queues no 200. *)
Lemma success_without_payload_faults :
  let connection := request [user_agent] in
  let serve payload :=
    @api_handler_serve unit unit httpd JanssonModel.jansson
      (constant_callbacks 0 0 payload) a0 connection 1 "/status" "" 0 in
  (In (Call_process_cb status_process_cb None) (served_calls (serve None)) /\
   @call_process_cb unit unit (constant_callbacks 0 0 None) status_process_cb
     a0 connection None tt = (0, None, a0) /\
   served_outcome (serve None) = Fault_null_dereference /\
   forall response, served_outcome (serve None) <> Queued 200 response) /\
  (In (Call_process_cb status_process_cb None)
      (served_calls (serve (Some (JSON_STRING "ok")))) /\
   served_outcome (serve (Some (JSON_STRING "ok"))) = Fault_null_dereference).
Proof.
  cbv zeta. repeat split; try reflexivity; try (simpl; auto; fail).
  intros response Q. discriminate Q.
Qed.

(** GET /status with a callback that fails and leaves a diagnostic. *)
Lemma process_result_envelope_witness :
  let diagnostic := JSON_OBJECT [("reason", JSON_STRING "disk")] in
  exists json_buff,
    JanssonModel.dumps (Some (error_500 (Some diagnostic))) 0 = Some json_buff /\
    served_outcome
      (@api_handler_serve unit unit httpd JanssonModel.jansson
         (constant_callbacks 0 1 (Some diagnostic)) a0 (request [user_agent])
         1 "/status" "" 0)
    = Queued 500 (json_response json_buff).
Proof.
  cbv zeta.
  refine (proj2 (proj2
    (@process_result_envelope unit unit httpd JanssonModel.jansson
       (constant_callbacks 0 1 (Some (JSON_OBJECT [("reason", JSON_STRING "disk")])))
       a0 (request [user_agent]) 1 "/status" "" 0 status_process_cb None
       1 (Some (JSON_OBJECT [("reason", JSON_STRING "disk")])) a0 _ _)) _ _).
  - simpl. auto.
  - reflexivity.
  - intros members D. discriminate D.
  - discriminate.
Defined.


(** GET /status with a callback that succeeds and sets no response. *)
Lemma success_requires_payload_witness :
  served_outcome
    (@api_handler_serve unit unit httpd JanssonModel.jansson
       (constant_callbacks 0 0 None) a0 (request [user_agent])
       1 "/status" "" 0)
  = Fault_null_dereference.
Proof.
  refine (proj1 (proj2
    (@success_requires_payload unit unit httpd JanssonModel.jansson
       (constant_callbacks 0 0 None) a0 (request [user_agent])
       1 "/status" "" 0 status_process_cb None None a0 _ _)) _).
  - simpl. auto.
  - reflexivity.
  - reflexivity.
Defined.

(** A second add of a token leaves the first client in place. *)
Lemma add_client_present_or_absent_witness :
  let a1 : api_handler bool unit :=
    snd (api_handler_add_client (api_handler_new tt) "1234" (Some true)) in
  api_handler_add_client a1 "1234" (Some false) = (1, a1) /\
  api_handler_get_client a1 "1234" = Some true.
Proof.
  cbv zeta. split.
  - refine (proj1 (proj1 (add_client_present_or_absent _ "1234" (Some false)) _)).
    reflexivity.
  - refine (proj1 (proj2 (proj2 (proj2
      (add_client_present_or_absent (api_handler_new tt) "1234" (Some true))
      _)))).
    reflexivity.
Defined.

(** Removing the one registered token empties the registry. *)
Lemma remove_and_get_client_witness :
  let a1 : api_handler bool unit :=
    registry_step (api_handler_new tt) (Op_add "1234" (Some true)) in
  reachable a1 /\
  api_handler_get_client (snd (api_handler_remove_client a1 "1234")) "1234"
  = None.
Proof.
  cbv zeta.
  assert (R : reachable
                (registry_step (api_handler_new (api_client := bool) tt)
                   (Op_add "1234" (Some true)))).
  { apply reachable_step, reachable_new. }
  split; [exact R|].
  refine (proj1 (proj2 (proj2 (proj1 (proj2
    (remove_and_get_client _ "1234" R)) _)))).
  reflexivity.
Defined.

Lemma registry_one_client_per_token_witness :
  let a1 : api_handler bool unit :=
    registry_step (api_handler_new tt) (Op_add "1234" (Some true)) in
  reachable a1 /\
  tokens_unique (registry_step a1 (Op_add "1234" (Some false))).
Proof.
  cbv zeta.
  assert (R : reachable
                (registry_step (api_handler_new (api_client := bool) tt)
                   (Op_add "1234" (Some true)))).
  { apply reachable_step, reachable_new. }
  split; [exact R|].
  exact (proj1 (proj1 (proj2 (proj2 (registry_one_client_per_token _ R)))
                  (Op_add "1234" (Some false)))).
Defined.

(** C7 at POST /scan with the three bytes of an array followed by a stray
    bracket: the strict decoder (no flags) rejects the body, but the
    dispatcher hands the body size to the decoder as its flags, 3 sets
    JSON_DISABLE_EOF_CHECK, the decoder stops after the array, and both
    callbacks are called. *)
Theorem scan_trailing_bytes_reach_callbacks :
  let connection :=
    request [user_agent; token; header "Content-Type" "application/json"] in
  let s :=
    @api_handler_serve unit unit httpd JanssonModel.jansson
      (constant_callbacks 0 0 (Some (JSON_OBJECT []))) a0 connection
      2 "/scan" "[]]" 3 in
  api_handler_pre_check a0 connection 2 "/scan" = PreCheckOk scan /\
  JanssonModel.parse_json 0 "[]]" = None /\
  served_calls s
  = [Call_json_loads "[]]" 3;
     Call_check_cb scan_check_cb (Some (JSON_ARRAY []));
     Call_process_cb scan_process_cb (Some (JSON_ARRAY []))] /\
  exists response, served_outcome s = Queued 200 response.
Proof.
  cbv zeta. repeat split; try reflexivity.
  eexists. reflexivity.
Qed.

(** * Further properties *)

(** ** Endpoint resolution *)

Lemma find_endpoint_some (table : list api_endpoint) (p : string)
    (e : api_endpoint) :
  find_endpoint table p = Some e -> In e table /\ path e = p.
Proof.
  induction table as [|x rest IH]; simpl; [discriminate|].
  rewrite strcmp_eqb. destruct (String.eqb (path x) p) eqn:E.
  - apply String.eqb_eq in E. intros Q. injection Q as <-. auto.
  - intros Q. destruct (IH Q). auto.
Qed.

Lemma find_endpoint_none (table : list api_endpoint) (p : string) :
  find_endpoint table p = None <-> ~ In p (map path table).
Proof.
  induction table as [|x rest IH]; simpl; [tauto|].
  rewrite strcmp_eqb. destruct (String.eqb (path x) p) eqn:E.
  - apply String.eqb_eq in E. split; [discriminate|tauto].
  - apply String.eqb_neq in E. rewrite IH. tauto.
Qed.

Lemma find_endpoint_app (before after : list api_endpoint)
    (e : api_endpoint) (p : string) :
  ~ In p (map path before) -> path e = p ->
  find_endpoint (before ++ e :: after) p = Some e.
Proof.
  intros N E. induction before as [|x rest IH]; simpl in *.
  - now rewrite E, strcmp_refl.
  - rewrite strcmp_eqb. destruct (String.eqb (path x) p) eqn:X.
    + apply String.eqb_eq in X. tauto.
    + apply IH. tauto.
Qed.

Lemma find_endpoint_unique (table : list api_endpoint) (e : api_endpoint) :
  NoDup (map path table) -> In e table ->
  find_endpoint table (path e) = Some e.
Proof.
  intros N I. apply in_split in I. destruct I as (before & after & ->).
  apply find_endpoint_app; [|reflexivity].
  rewrite map_app in N. simpl in N. apply NoDup_remove_2 in N.
  intros B. apply N, in_or_app. now left.
Qed.

(** X2: the loop of [get_api_endpoint] answers the first entry of the
    table whose path is the requested one, whatever follows it, entries
    with the same path included; it answers NULL exactly when no entry has
    the path. *)
Theorem find_endpoint_first_match (table : list api_endpoint) (p : string) :
  (forall before e after,
     table = before ++ e :: after ->
     ~ In p (map path before) -> path e = p ->
     find_endpoint table p = Some e) /\
  (find_endpoint table p = None <-> ~ In p (map path table)).
Proof.
  split; [|apply find_endpoint_none].
  intros before e after -> N E. now apply find_endpoint_app.
Qed.

Section Resolution.

Context `{Httpd}.

Lemma api_endpoint_table_paths : map path api_endpoint_table = api_endpoint_paths.
Proof. reflexivity. Qed.

Lemma api_endpoint_paths_NoDup : NoDup api_endpoint_paths.
Proof.
  unfold api_endpoint_paths.
  repeat (constructor; [simpl; intuition discriminate|]). constructor.
Qed.

Lemma get_api_endpoint_some (p : string) (e : api_endpoint) :
  get_api_endpoint p = Some e <-> In e api_endpoint_table /\ path e = p.
Proof.
  unfold get_api_endpoint. split; [apply find_endpoint_some|].
  intros [I <-]. apply find_endpoint_unique; [|exact I].
  rewrite api_endpoint_table_paths. apply api_endpoint_paths_NoDup.
Qed.

Lemma get_api_endpoint_none (p : string) :
  get_api_endpoint p = None <-> ~ In p api_endpoint_paths.
Proof.
  unfold get_api_endpoint. rewrite find_endpoint_none.
  now rewrite api_endpoint_table_paths.
Qed.

(** X1: resolution is an exact match on the eight paths of the table: a
    path resolves to an entry exactly when the entry is in the table under
    that very path, and to NULL exactly when it is none of the eight. *)
Theorem get_api_endpoint_exact_match (p : string) :
  (forall e, get_api_endpoint p = Some e <->
             In e api_endpoint_table /\ path e = p) /\
  (get_api_endpoint p = None <-> ~ In p api_endpoint_paths).
Proof.
  split; [intros e; apply get_api_endpoint_some|apply get_api_endpoint_none].
Qed.

End Resolution.

(** A table with two entries for /scan: the first one is found. *)
Lemma find_endpoint_first_match_witness :
  let ping := {| path := "/ping"; accepted_methods := 1; need_token := 1;
                 process_cb := ping_process_cb; check_cb := None |} in
  let first := {| path := "/scan"; accepted_methods := 1; need_token := 0;
                  process_cb := status_process_cb; check_cb := None |} in
  find_endpoint [ping; first; Example.scan] "/scan" = Some first.
Proof.
  cbv zeta.
  refine (proj1 (find_endpoint_first_match _ "/scan")
            [_] _ [Example.scan] eq_refl _ _).
  - simpl. intuition discriminate.
  - reflexivity.
Defined.

(** ** What the validator reads *)

Lemma lookup_value_of_kind (vs : list (MHD_ValueKind * string * string))
    (kind : MHD_ValueKind) (key : string) :
  lookup_value
    (filter (fun entry => MHD_ValueKind_eqb (fst (fst entry)) kind) vs) kind key
  = lookup_value vs kind key.
Proof.
  induction vs as [|[[k h] v] rest IH]; simpl; [reflexivity|].
  destruct (MHD_ValueKind_eqb k kind) eqn:K; simpl.
  - rewrite K, IH. reflexivity.
  - exact IH.
Qed.

Lemma lookup_connection_value_of_kind (c1 c2 : MHD_Connection)
    (kind : MHD_ValueKind) (key : string) :
  entries_of_kind kind c1 = entries_of_kind kind c2 ->
  MHD_lookup_connection_value c1 kind key
  = MHD_lookup_connection_value c2 kind key.
Proof.
  unfold MHD_lookup_connection_value, entries_of_kind. intros E.
  rewrite <- (lookup_value_of_kind (connection_values c1)).
  rewrite <- (lookup_value_of_kind (connection_values c2)).
  now rewrite E.
Qed.

Lemma caseless_excludes (h key1 key2 : string) :
  MHD_str_equal_caseless h key1 = true ->
  MHD_str_equal_caseless key2 key1 = false ->
  MHD_str_equal_caseless h key2 = false.
Proof.
  unfold MHD_str_equal_caseless. intros E N.
  apply String.eqb_eq in E. rewrite E.
  now rewrite String.eqb_sym.
Qed.

Lemma lookup_with_token_value_other (value key : string)
    (connection : MHD_Connection) :
  MHD_str_equal_caseless key API_TOKEN_HEADER = false ->
  MHD_lookup_connection_value (with_token_value value connection)
    MHD_HEADER_KIND key
  = MHD_lookup_connection_value connection MHD_HEADER_KIND key.
Proof.
  intros N. unfold MHD_lookup_connection_value, with_token_value. simpl.
  induction (connection_values connection) as [|[[k h] v] rest IH]; simpl;
    [reflexivity|].
  destruct (MHD_ValueKind_eqb k MHD_HEADER_KIND) eqn:K; simpl.
  - destruct (MHD_str_equal_caseless h API_TOKEN_HEADER) eqn:T; simpl;
      rewrite K; simpl.
    + now rewrite (caseless_excludes _ _ _ T N).
    + now rewrite IH.
  - rewrite K. simpl. exact IH.
Qed.

Lemma lookup_with_token_value_token (value : string)
    (connection : MHD_Connection) :
  api_get_token (with_token_value value connection)
  = option_map (fun _ => value) (api_get_token connection).
Proof.
  unfold api_get_token, MHD_lookup_connection_value, with_token_value. simpl.
  induction (connection_values connection) as [|[[k h] v] rest IH]; simpl;
    [reflexivity|].
  destruct (MHD_ValueKind_eqb k MHD_HEADER_KIND) eqn:K; simpl.
  - destruct (MHD_str_equal_caseless h API_TOKEN_HEADER) eqn:T; simpl;
      rewrite K, T; simpl; [reflexivity|exact IH].
  - rewrite K. simpl. exact IH.
Qed.

Lemma append_empty (s : string) : (s ++ EmptyString)%string = s.
Proof. induction s as [|c s IH]; simpl; [reflexivity|now rewrite IH]. Qed.

Lemma media_type_is_prefix (value : string) :
  exists parameters,
    value = (media_type_before_parameters value ++ parameters)%string.
Proof.
  induction value as [|c rest [parameters IH]]; simpl.
  - now exists EmptyString.
  - destruct (Ascii.eqb c ";").
    + now exists (String c rest).
    + exists parameters. simpl. now rewrite <- IH.
Qed.

Lemma media_type_no_semicolon (value : string) :
  strchr (media_type_before_parameters value) ";" = None.
Proof.
  induction value as [|c rest IH]; simpl; [reflexivity|].
  destruct (Ascii.eqb c ";") eqn:E; simpl; [reflexivity|].
  now rewrite E, IH.
Qed.

Section ValidatorReads.

Context {api_client user_data_t : Type} `{Httpd}.

Abbreviation handler := (api_handler api_client user_data_t).

(** X3: the validator reads nothing of a connection but its headers: two
    connections with the same header entries get the same answer, whatever
    GET arguments, cookies or other entries they carry; and
    [api_get_argument] reads nothing but the GET arguments. *)
Theorem pre_check_reads_headers_only (a : handler) (c1 c2 : MHD_Connection)
    (method : Z) (p : string) :
  (entries_of_kind MHD_HEADER_KIND c1 = entries_of_kind MHD_HEADER_KIND c2 ->
   api_handler_pre_check a c1 method p = api_handler_pre_check a c2 method p) /\
  (entries_of_kind MHD_GET_ARGUMENT_KIND c1
   = entries_of_kind MHD_GET_ARGUMENT_KIND c2 ->
   forall key, api_get_argument c1 key = api_get_argument c2 key).
Proof.
  split.
  - intros E. unfold api_handler_pre_check, api_get_user_agent, api_get_token,
      api_get_content_type.
    now rewrite !(lookup_connection_value_of_kind c1 c2 _ _ E).
  - intros E key. unfold api_get_argument.
    now apply lookup_connection_value_of_kind.
Qed.

(** X4: the validator looks at the presence of the token header only: its
    answer is the same whatever value the token has and whatever the client
    table holds, so a token that was never registered passes it. *)
Theorem pre_check_ignores_token_value (a : handler)
    (table : GHashTable.t (option api_client)) (value : string)
    (connection : MHD_Connection) (method : Z) (p : string) :
  api_handler_pre_check (set_client_table a table)
    (with_token_value value connection) method p
  = api_handler_pre_check a connection method p.
Proof.
  unfold api_handler_pre_check, api_get_user_agent, api_get_content_type.
  rewrite lookup_with_token_value_token.
  rewrite !lookup_with_token_value_other by reflexivity.
  now destruct (api_get_token connection).
Qed.

(** X10: the media type [api_get_content_type] answers is a prefix of the
    header value; it is what precedes the first semicolon, and holds none,
    unless the value starts with a semicolon, in which case it is the whole
    value; it is empty only for an empty header value. *)
Theorem api_get_content_type_prefix (connection : MHD_Connection)
    (value : string) :
  MHD_lookup_connection_value connection MHD_HEADER_KIND "Content-Type"
  = Some value ->
  exists content_type parameters,
    api_get_content_type connection = Some content_type /\
    value = (content_type ++ parameters)%string /\
    (value <> EmptyString -> content_type <> EmptyString) /\
    ((exists rest, value = String ";" rest) -> content_type = value) /\
    ((forall rest, value <> String ";" rest) ->
     content_type = media_type_before_parameters value /\
     strchr content_type ";" = None).
Proof.
  intros L. unfold api_get_content_type.
  change MHD_HTTP_HEADER_CONTENT_TYPE with "Content-Type". rewrite L.
  destruct (strchr value ";") as [[|n]|] eqn:C; simpl.
  - apply strchr_zero_head in C. destruct C as [rest ->].
    exists (String ";" rest), EmptyString.
    refine (conj eq_refl (conj _ (conj _ (conj _ _)))).
    + now rewrite append_empty.
    + auto.
    + auto.
    + intros N. now elim (N rest).
  - rewrite (media_type_strncpy _ _ C).
    destruct (media_type_is_prefix value) as [parameters P].
    exists (media_type_before_parameters value), parameters.
    refine (conj eq_refl (conj P (conj _ (conj _ _)))).
    + intros _. destruct value as [|c rest]; [discriminate C|]. simpl in *.
      destruct (Ascii.eqb c ";"); [discriminate C|discriminate].
    + intros [rest ->]. simpl in C. discriminate C.
    + intros _. split; [reflexivity|apply media_type_no_semicolon].
  - pose proof (media_type_no_parameter _ C) as W.
    exists value, EmptyString.
    refine (conj eq_refl (conj _ (conj _ (conj _ _)))).
    + now rewrite append_empty.
    + auto.
    + auto.
    + intros _. split; [now rewrite W|exact C].
Qed.

Lemma in_table_resolves (e : api_endpoint) :
  In e api_endpoint_table -> get_api_endpoint (path e) = Some e.
Proof. intros I. now apply get_api_endpoint_some. Qed.

(** X17: when GET and POST are distinct bits, every entry of the table but
    /scan lets GET through the validator and answers 405 to POST, and /scan
    answers 405 to GET, for a request that has a User-Agent and a token. *)
Theorem table_methods (a : handler) (connection : MHD_Connection)
    (endpoint : api_endpoint) :
  HTTP_METHOD_GET <> 0 -> HTTP_METHOD_GET <> HTTP_METHOD_POST ->
  Z.land HTTP_METHOD_GET HTTP_METHOD_POST = 0 ->
  api_get_user_agent connection <> None ->
  api_get_token connection <> None ->
  In endpoint api_endpoint_table ->
  (path endpoint <> "/scan" ->
   api_handler_pre_check a connection HTTP_METHOD_GET (path endpoint)
   = PreCheckOk endpoint /\
   api_handler_pre_check a connection HTTP_METHOD_POST (path endpoint)
   = PreCheckError 405 (response_405 a)) /\
  (path endpoint = "/scan" ->
   api_handler_pre_check a connection HTTP_METHOD_GET (path endpoint)
   = PreCheckError 405 (response_405 a)).
Proof.
  intros G D B U T I. pose proof (in_table_resolves endpoint I) as R.
  assert (GG : Z.land HTTP_METHOD_GET HTTP_METHOD_GET <> 0)
    by now rewrite Z.land_diag.
  assert (PG : Z.land HTTP_METHOD_POST HTTP_METHOD_GET = 0)
    by now rewrite Z.land_comm.
  simpl in I.
  repeat (destruct I as [<-|I]; [simpl in *; split; intros S;
    try (exfalso; apply S; reflexivity); try discriminate S;
    try (split; [apply (pre_check_ok a connection _ _ _ R); auto; tauto
                |apply (pre_check_405 a connection _ _ _ R); auto]);
    try (apply (pre_check_405 a connection _ _ _ R); auto) |]).
  contradiction.
Qed.

End ValidatorReads.

(** ** The dispatcher, stage by stage *)

Section DispatcherStages.

Context {api_client user_data_t : Type}.
Context `{Httpd} `{Jansson} `{ApiCallbacks api_client user_data_t}.

Abbreviation handler := (api_handler api_client user_data_t).

Ltac stages :=
  unfold api_handler_serve, api_parse_json_request;
  let endpoint := fresh "endpoint" in
  destruct (api_handler_pre_check _ _ _ _) as [endpoint|?code ?resp] eqn:?Epre;
  cbn [served_calls served_outcome served_handler];
  [ destruct ((_ =? HTTP_METHOD_POST) && negb (_ =? 0)) eqn:?Eparse;
    [ destruct (json_loads _ _) as [?j|] eqn:?Eloads | ];
    cbn [andb is_NULL served_calls served_outcome served_handler];
    try (destruct (check_cb endpoint) as [?cb|] eqn:?Echeck;
         [ destruct (call_check_cb _ _ _ =? 0) eqn:?Eret_check | ];
         cbn [negb served_calls served_outcome served_handler];
         try (destruct (call_process_cb _ _ _ _ _) as [[?ret ?j_response] ?a']
                eqn:?Ecall;
              destruct (ret =? 0) eqn:?Eret;
              cbn [negb served_calls served_outcome served_handler]))
  | ].

Ltac in_calls :=
  repeat match goal with
         | I : In _ (_ ++ _) |- _ => simpl in I
         | I : In _ (_ :: _) |- _ => simpl in I
         | I : In _ [] |- _ => contradiction I
         | I : _ \/ _ |- _ => destruct I as [I|I]
         | I : False |- _ => contradiction
         | I : Call_json_loads _ _ = Call_check_cb _ _ |- _ => discriminate I
         | I : Call_json_loads _ _ = Call_process_cb _ _ |- _ => discriminate I
         | I : Call_check_cb _ _ = Call_json_loads _ _ |- _ => discriminate I
         | I : Call_check_cb _ _ = Call_process_cb _ _ |- _ => discriminate I
         | I : Call_process_cb _ _ = Call_json_loads _ _ |- _ => discriminate I
         | I : Call_process_cb _ _ = Call_check_cb _ _ |- _ => discriminate I
         | I : Call_json_loads _ _ = Call_json_loads _ _ |- _ =>
             injection I as <- <-
         | I : Call_check_cb ?c1 _ = Call_check_cb ?c2 _ |- _ =>
             destruct c1, c2; injection I as <-
         | I : Call_process_cb _ _ = Call_process_cb _ _ |- _ =>
             injection I as <- <-
         end.

(** Why the validator refused: each status has one cause. *)
Lemma pre_check_error_cause (a : handler) connection method p code response :
  api_handler_pre_check a connection method p = PreCheckError code response ->
  (code = 404 /\ get_api_endpoint p = None) \/
  (code = 403 /\ api_get_user_agent connection = None) \/
  (code = 400 /\ api_get_token connection = None) \/
  (code = 405 /\
   exists endpoint, get_api_endpoint p = Some endpoint /\
                    Z.land (accepted_methods endpoint) method = 0) \/
  (code = 415 /\ method = HTTP_METHOD_POST /\
   api_get_content_type connection <> Some "application/json").
Proof.
  unfold api_handler_pre_check.
  destruct (get_api_endpoint p) as [e|].
  2:{ intros Q. injection Q as <- <-. auto. }
  destruct (api_get_user_agent connection) as [ua|]; simpl.
  2:{ intros Q. injection Q as <- <-. auto. }
  destruct (negb (need_token e =? 0) && is_NULL (api_get_token connection))
    eqn:T.
  { intros Q. injection Q as <- <-. apply andb_true_iff in T.
    destruct T as [_ T]. destruct (api_get_token connection);
      [discriminate T|auto]. }
  destruct (Z.land (accepted_methods e) method =? 0) eqn:M.
  { intros Q. injection Q as <- <-. apply Z.eqb_eq in M.
    do 3 right. left. split; [reflexivity|]. now exists e. }
  destruct (method =? HTTP_METHOD_POST) eqn:P; [|discriminate].
  apply Z.eqb_eq in P.
  destruct (api_get_content_type connection) as [ct|].
  - rewrite strcmp_eqb.
    destruct (String.eqb ct "application/json") eqn:J; [discriminate|].
    apply String.eqb_neq in J. intros Q. injection Q as <- <-.
    do 4 right. repeat split; congruence.
  - intros Q. injection Q as <- <-. do 4 right. repeat split; congruence.
Qed.

(** X5: every response the dispatcher queues for a handler made by
    [api_handler_new] has one of the eight statuses 200, 400, 403, 404, 405,
    415, 422 and 500, and under each of the six error statuses below 500
    the body is the standard body of that status, byte for byte. *)
Theorem served_status_and_body (ud : user_data_t)
    (table : GHashTable.t (option api_client)) (connection : MHD_Connection)
    (method : Z) (p post_data : string) (post_data_size : Z)
    (status : Z) (response : MHD_Response) :
  served_outcome
    (api_handler_serve (set_client_table (api_handler_new ud) table)
       connection method p post_data post_data_size)
  = Queued status response ->
  In status [200; 400; 403; 404; 405; 415; 422; 500] /\
  forall body, In (status, body) std_bodies -> response_body response = body.
Proof.
  stages; unfold MHD_queue_response; intros Q.
  all: try rewrite api_queue_response_500_envelope in Q.
  all: try (apply api_queue_response_inv in Q; destruct Q as (-> & _);
            split; [simpl; tauto|];
            intros body B; simpl in B; exfalso;
            repeat (destruct B as [B|B]; [discriminate B|]); exact B).
  all: try (injection Q as <- <-; split; [simpl; tauto|];
            intros body B; simpl in B;
            repeat (destruct B as [B|B];
                    [try discriminate B; injection B as <-; reflexivity|]);
            contradiction).
  apply pre_check_error_inv in Epre. injection Q as <- <-. simpl in Epre.
  repeat (destruct Epre as [Epre|Epre];
          [injection Epre as <- <-; split; [simpl; tauto|];
           intros body B; simpl in B;
           repeat (destruct B as [B|B];
                   [try discriminate B; injection B as <-; reflexivity|]);
           contradiction|]).
  contradiction.
Qed.


(** X7: the handler comes back from the dispatcher as it went in unless the
    process callback was called, in which case it is the handler the
    callback returned. *)
Theorem handler_changes_only_in_process_cb (a : handler)
    (connection : MHD_Connection) (method : Z) (p post_data : string)
    (post_data_size : Z) :
  let s := api_handler_serve a connection method p post_data post_data_size in
  ((forall cb j_request,
      ~ In (Call_process_cb cb j_request) (served_calls s)) ->
   served_handler s = a) /\
  (forall cb j_request,
     In (Call_process_cb cb j_request) (served_calls s) ->
     served_handler s
     = snd (call_process_cb cb a connection j_request (user_data a))).
Proof.
  cbv zeta. split.
  - stages; intros N; try reflexivity.
    all: exfalso; eapply N; apply in_or_app; right; apply in_or_app; right;
      left; reflexivity.
  - intros c j. stages; intros I; in_calls.
    all: now rewrite Ecall.
Qed.

(** X8: when the parameter checker answers nonzero the dispatcher queues
    the standard 422 response, does not call the process callback and
    leaves the handler as it was; and when the process callback is called
    after a checker, the checker was given the same parsed body and
    answered 0. *)
Theorem check_failure_422 (a : handler) (connection : MHD_Connection)
    (method : Z) (p post_data : string) (post_data_size : Z)
    (cb : check_cb_t) (j_request : option json) :
  let s := api_handler_serve a connection method p post_data post_data_size in
  In (Call_check_cb cb j_request) (served_calls s) ->
  (call_check_cb cb connection j_request <> 0 ->
   served_outcome s = Queued 422 (response_422 a) /\
   served_handler s = a /\
   forall pcb pj, ~ In (Call_process_cb pcb pj) (served_calls s)) /\
  (forall pcb pj,
     In (Call_process_cb pcb pj) (served_calls s) ->
     pj = j_request /\ call_check_cb cb connection j_request = 0).
Proof.
  cbv zeta. stages; intros I; in_calls.
  all: repeat match goal with
              | E : (_ =? _) = true |- _ => apply Z.eqb_eq in E
              | E : (_ =? _) = false |- _ => apply Z.eqb_neq in E
              end.
  all: split;
    [ intros N; try contradiction; repeat split; intros; intros I; in_calls
    | intros pcb pj I; in_calls; auto ].
Qed.

(** The cause of each error status in terms of what the accessors of the
    file answer. *)
Lemma status_cause (a : handler) (connection : MHD_Connection)
    (method : Z) (p post_data : string) (post_data_size : Z)
    (status : Z) (response : MHD_Response) :
  let s := api_handler_serve a connection method p post_data post_data_size in
  served_outcome s = Queued status response ->
  (status = 404 -> get_api_endpoint p = None) /\
  (status = 403 -> api_get_user_agent connection = None) /\
  (status = 405 ->
   exists endpoint, get_api_endpoint p = Some endpoint /\
                    Z.land (accepted_methods endpoint) method = 0) /\
  (status = 415 ->
   method = HTTP_METHOD_POST /\
   api_get_content_type connection <> Some "application/json") /\
  (status = 422 ->
   p = "/scan" /\
   exists j_request, In (Call_check_cb scan_check_cb j_request) (served_calls s)) /\
  (status = 400 ->
   api_get_token connection = None \/
   (In (Call_json_loads post_data post_data_size) (served_calls s) /\
    json_loads post_data post_data_size = None)).
Proof.
  cbv zeta. stages; unfold MHD_queue_response; intros Q.
  all: try rewrite api_queue_response_500_envelope in Q.
  all: try (apply api_queue_response_inv in Q; destruct Q as (-> & _);
            repeat split; discriminate).
  all: try (injection Q as <- <-).
  all: try (apply pre_check_error_cause in Epre;
            destruct Epre as [[-> E]|[[-> E]|[[-> E]|[[-> E]|[-> E]]]]];
            refine (conj _ (conj _ (conj _ (conj _ (conj _ _)))));
            try discriminate; intros _; first [exact E | left; exact E]).
  all: refine (conj _ (conj _ (conj _ (conj _ (conj _ _)))));
    try discriminate; intros _.
  all: try (right; split; [simpl; auto | reflexivity]).
  all: split; [|eexists; destruct cb; simpl; auto].
  all: apply pre_check_ok_inv in Epre; destruct Epre as (G & _).
  all: apply get_api_endpoint_some in G; destruct G as [G <-].
  all: simpl in G.
  all: repeat (destruct G as [<-|G]; [try discriminate Echeck; reflexivity|]).
  all: contradiction.
Qed.

(** X9: each error status has one cause.  404 is queued only for a path
    that is none of the eight of the table, 403 only for a connection with
    no User-Agent header, 405 only for a method the entry of the path does
    not accept, 415 only for a POST whose Content-Type header is missing or
    has another media type than application/json, 422 only for /scan and
    after its checker was called, and 400 only for a connection with no
    X-Armadito-Token header or after the decoder returned NULL. *)
Theorem status_tells_cause (a : handler) (connection : MHD_Connection)
    (method : Z) (p post_data : string) (post_data_size : Z)
    (status : Z) (response : MHD_Response) :
  let s := api_handler_serve a connection method p post_data post_data_size in
  let header := MHD_lookup_connection_value connection MHD_HEADER_KIND in
  served_outcome s = Queued status response ->
  (status = 404 -> ~ In p api_endpoint_paths) /\
  (status = 403 -> header "User-Agent" = None) /\
  (status = 405 ->
   exists endpoint,
     In endpoint api_endpoint_table /\ path endpoint = p /\
     Z.land (accepted_methods endpoint) method = 0) /\
  (status = 415 ->
   method = HTTP_METHOD_POST /\
   ~ exists value,
       header "Content-Type" = Some value /\
       media_type_before_parameters value = "application/json") /\
  (status = 422 ->
   p = "/scan" /\
   exists j_request, In (Call_check_cb scan_check_cb j_request) (served_calls s)) /\
  (status = 400 ->
   header "X-Armadito-Token" = None \/
   (In (Call_json_loads post_data post_data_size) (served_calls s) /\
    json_loads post_data post_data_size = None)).
Proof.
  cbv zeta. intros Q.
  destruct (status_cause a connection method p post_data post_data_size
              status response Q) as (C404 & C403 & C405 & C415 & C422 & C400).
  refine (conj _ (conj C403 (conj _ (conj _ (conj C422 C400))))).
  - intros S. now apply get_api_endpoint_none, C404.
  - intros S. destruct (C405 S) as (endpoint & E & M).
    apply get_api_endpoint_some in E. destruct E as [I E].
    now exists endpoint.
  - intros S. destruct (C415 S) as [P C]. split; [exact P|].
    intros A. apply C. now apply content_type_accepted.
Qed.

End DispatcherStages.

(** ** More on the hash table and the registry *)

Section GHashTableMore.

Context {V : Type}.

Lemma remove_insert_absent (table : GHashTable.t V) (key : string) (value : V) :
  g_hash_table_contains table key = false ->
  g_hash_table_remove (g_hash_table_insert table key value) key
  = (true, table).
Proof.
  induction table as [|[k v] rest IH]; simpl.
  - now rewrite String.eqb_refl.
  - destruct (String.eqb k key) eqn:E; [discriminate|].
    intros C. simpl. now rewrite E, (IH C).
Qed.

Lemma contains_insert_other (table : GHashTable.t V) (key other : string)
    (value : V) :
  other <> key ->
  g_hash_table_contains (g_hash_table_insert table key value) other
  = g_hash_table_contains table other.
Proof.
  intros D. apply String.eqb_neq in D. rewrite String.eqb_sym in D.
  induction table as [|[k v] rest IH]; simpl.
  - now rewrite D.
  - destruct (String.eqb k key) eqn:E; simpl.
    + apply String.eqb_eq in E. subst k. now rewrite D.
    + now rewrite IH.
Qed.

Lemma length_insert (table : GHashTable.t V) (key : string) (value : V) :
  List.length (g_hash_table_insert table key value)
  = if g_hash_table_contains table key then List.length table
    else S (List.length table).
Proof.
  induction table as [|[k v] rest IH]; simpl; [reflexivity|].
  destruct (String.eqb k key); simpl; [reflexivity|].
  rewrite IH. now destruct (g_hash_table_contains rest key).
Qed.

Lemma length_remove (table : GHashTable.t V) (key : string) :
  List.length (snd (g_hash_table_remove table key))
  = if g_hash_table_contains table key then Nat.pred (List.length table)
    else List.length table.
Proof.
  induction table as [|[k v] rest IH]; simpl; [reflexivity|].
  destruct (String.eqb k key); simpl; [reflexivity|].
  destruct (g_hash_table_remove rest key) as [found rest'] eqn:R.
  simpl in *. rewrite IH.
  destruct (g_hash_table_contains rest key) eqn:C; [|reflexivity].
  destruct rest; [discriminate C|reflexivity].
Qed.

Lemma lookup_some_in (table : GHashTable.t (option V)) (key : string) (c : V) :
  g_hash_table_lookup table key = Some c -> In (key, Some c) table.
Proof.
  induction table as [|[k v] rest IH]; simpl; [discriminate|].
  destruct (String.eqb k key) eqn:E.
  - apply String.eqb_eq in E. intros ->. left. now subst.
  - auto.
Qed.

Lemma in_lookup_some (table : GHashTable.t (option V)) (key : string) (c : V) :
  NoDup (GHashTable.keys table) ->
  In (key, Some c) table -> g_hash_table_lookup table key = Some c.
Proof.
  induction table as [|[k v] rest IH]; simpl; [contradiction|].
  intros N. apply NoDup_cons_iff in N. destruct N as [Nk N].
  intros [Q|I].
  - injection Q as -> ->. now rewrite String.eqb_refl.
  - destruct (String.eqb k key) eqn:E.
    + apply String.eqb_eq in E. subst k. exfalso. apply Nk.
      apply (in_map fst) in I. exact I.
    + now apply IH.
Qed.

End GHashTableMore.

Section RegistryMore.

Context {api_client user_data_t : Type}.

Abbreviation handler := (api_handler api_client user_data_t).

Lemma set_client_table_twice (a : handler)
    (t1 t2 : GHashTable.t (option api_client)) :
  set_client_table (set_client_table a t1) t2 = set_client_table a t2.
Proof. reflexivity. Qed.

Lemma set_client_table_id (a : handler) :
  set_client_table a (client_table a) = a.
Proof. now destruct a. Qed.

(** X11: registering a token that was absent and then removing it gives
    back the handler one started from, and the removal reports success. *)
Theorem add_then_remove_restores (a : handler) (token : string)
    (client : option api_client) :
  g_hash_table_contains (client_table a) token = false ->
  api_handler_remove_client
    (snd (api_handler_add_client a token client)) token
  = (0, a).
Proof.
  intros C. unfold api_handler_add_client, api_handler_remove_client.
  rewrite C. simpl. rewrite (remove_insert_absent _ _ _ C). simpl.
  now destruct a.
Qed.

(** X12: once a registered token has been removed, removing it again
    reports failure and changes nothing, and registering it again reports
    success and binds the new client. *)
Theorem remove_then_again (a : handler) (token : string)
    (client : option api_client) :
  reachable a ->
  g_hash_table_contains (client_table a) token = true ->
  let a1 := snd (api_handler_remove_client a token) in
  api_handler_remove_client a1 token = (1, a1) /\
  fst (api_handler_add_client a1 token client) = 0 /\
  api_handler_get_client (snd (api_handler_add_client a1 token client)) token
  = client.
Proof.
  intros R C. apply reachable_tokens_unique in R. unfold tokens_unique in R.
  cbv zeta.
  assert (G : g_hash_table_contains
                (client_table (snd (api_handler_remove_client a token))) token
              = false).
  { unfold api_handler_remove_client.
    pose proof (contains_remove (client_table a) token R) as G.
    pose proof (remove_present _ _ C) as F.
    destruct (g_hash_table_remove (client_table a) token) as [found table].
    simpl in *. subst found. exact G. }
  split; [|split].
  - unfold api_handler_remove_client at 1. now rewrite (remove_absent _ _ G).
  - unfold api_handler_add_client. now rewrite G.
  - unfold api_handler_add_client, api_handler_get_client. rewrite G. simpl.
    apply lookup_insert_same.
Qed.

(** X13: in a reachable handler a lookup answers a client exactly when the
    table holds an entry binding the token to that client. *)
Theorem get_client_iff_registered (a : handler) (token : string)
    (client : api_client) :
  reachable a ->
  api_handler_get_client a token = Some client <->
  In (token, Some client) (client_table a).
Proof.
  intros R. apply reachable_tokens_unique in R. unfold api_handler_get_client.
  split; [apply lookup_some_in|now apply in_lookup_some].
Qed.

(** X14: a successful add makes the table one entry longer and a
    successful remove one entry shorter; an add or a remove that reports
    failure leaves the number of entries as it was. *)
Theorem registry_size (a : handler) (token : string)
    (client : option api_client) :
  let added := api_handler_add_client a token client in
  let removed := api_handler_remove_client a token in
  (fst added = 0 ->
   List.length (client_table (snd added)) = S (List.length (client_table a))) /\
  (fst added <> 0 ->
   List.length (client_table (snd added)) = List.length (client_table a)) /\
  (fst removed = 0 ->
   S (List.length (client_table (snd removed))) = List.length (client_table a)) /\
  (fst removed <> 0 ->
   List.length (client_table (snd removed)) = List.length (client_table a)).
Proof.
  cbv zeta. unfold api_handler_add_client, api_handler_remove_client.
  pose proof (length_insert (client_table a) token client) as LI.
  pose proof (length_remove (client_table a) token) as LR.
  destruct (g_hash_table_contains (client_table a) token) eqn:C.
  - pose proof (remove_present _ _ C) as F.
    destruct (g_hash_table_remove (client_table a) token) as [found table].
    simpl in *. subst found. simpl. rewrite LR.
    repeat split; try congruence; try discriminate.
    intros _. destruct (client_table a); [discriminate C|reflexivity].
  - rewrite (remove_absent _ _ C). simpl.
    repeat split; try congruence; try discriminate.
Qed.

Lemma register_all_cons (a : handler) (entry : string * option api_client)
    (clients : list (string * option api_client)) :
  register_all a (entry :: clients)
  = register_all (snd (api_handler_add_client a (fst entry) (snd entry)))
      clients.
Proof. reflexivity. Qed.

Lemma add_client_contains_other (a : handler) (token other : string)
    (client : option api_client) :
  other <> token ->
  g_hash_table_contains
    (client_table (snd (api_handler_add_client a token client))) other
  = g_hash_table_contains (client_table a) other.
Proof.
  intros D. unfold api_handler_add_client.
  destruct (g_hash_table_contains (client_table a) token); simpl;
    [reflexivity|now apply contains_insert_other].
Qed.

Lemma add_client_get_other (a : handler) (token other : string)
    (client : option api_client) :
  other <> token ->
  api_handler_get_client (snd (api_handler_add_client a token client)) other
  = api_handler_get_client a other.
Proof.
  intros D. unfold api_handler_add_client, api_handler_get_client.
  destruct (g_hash_table_contains (client_table a) token); simpl;
    [reflexivity|now apply lookup_insert_other].
Qed.

Lemma register_all_get_other (clients : list (string * option api_client))
    (a : handler) (other : string) :
  ~ In other (map fst clients) ->
  api_handler_get_client (register_all a clients) other
  = api_handler_get_client a other.
Proof.
  revert a. induction clients as [|[t c] rest IH]; intros a N;
    [reflexivity|].
  rewrite register_all_cons. simpl in *.
  rewrite IH by tauto. apply add_client_get_other. intros ->. tauto.
Qed.

(** X15: registering a list of distinct tokens, none of which is present,
    binds every one of them to its client, and leaves the lookup of every
    other token as it was. *)
Theorem register_all_retrievable
    (clients : list (string * option api_client)) (a : handler) :
  NoDup (map fst clients) ->
  (forall token, In token (map fst clients) ->
     g_hash_table_contains (client_table a) token = false) ->
  (forall token client, In (token, client) clients ->
     api_handler_get_client (register_all a clients) token = client) /\
  (forall other, ~ In other (map fst clients) ->
     api_handler_get_client (register_all a clients) other
     = api_handler_get_client a other).
Proof.
  intros N A. split; [|intros other O; now apply register_all_get_other].
  revert a A. induction clients as [|[t c] rest IH]; intros a A token client I;
    [contradiction|].
  simpl in N. apply NoDup_cons_iff in N. destruct N as [Nt N].
  rewrite register_all_cons. simpl fst. simpl snd.
  destruct I as [Q|I].
  - injection Q as -> ->. rewrite register_all_get_other by exact Nt.
    unfold api_handler_add_client, api_handler_get_client.
    rewrite (A token) by (simpl; auto). simpl. apply lookup_insert_same.
  - apply (IH N); [|exact I].
    intros k K. rewrite add_client_contains_other.
    + apply A. simpl. auto.
    + intros ->. contradiction.
Qed.

Lemma registry_step_frame (a : handler) (op : registry_op) :
  registry_step a op = set_client_table a (client_table (registry_step a op)).
Proof.
  destruct op as [token client|token|token]; simpl.
  - unfold api_handler_add_client.
    destruct (g_hash_table_contains (client_table a) token); simpl;
      [now rewrite set_client_table_id|reflexivity].
  - now rewrite set_client_table_id.
  - unfold api_handler_remove_client.
    destruct (g_hash_table_remove (client_table a) token) as [[|] table];
      simpl; [reflexivity|now rewrite set_client_table_id].
Qed.

(** X16: the registry operations change nothing of a handler but its
    client table: every reachable handler is the one [api_handler_new]
    made, with its six standard responses and its user data, and some
    client table put in. *)
Theorem reachable_is_new_with_table (a : handler) :
  reachable a ->
  exists ud, a = set_client_table (api_handler_new ud) (client_table a).
Proof.
  induction 1 as [ud|a op _ [ud IH]].
  - exists ud. reflexivity.
  - exists ud. rewrite registry_step_frame. rewrite IH at 1.
    apply set_client_table_twice.
Qed.

End RegistryMore.

(** ** The further properties at concrete inputs *)

(** A Content-Type with a charset parameter. *)
Lemma api_get_content_type_prefix_witness :
  exists content_type parameters,
    api_get_content_type
      (request [header "Content-Type" "application/json; charset=utf-8"])
    = Some content_type /\
    "application/json; charset=utf-8" = (content_type ++ parameters)%string.
Proof.
  destruct (api_get_content_type_prefix
              (request [header "Content-Type" "application/json; charset=utf-8"])
              "application/json; charset=utf-8" eq_refl)
    as (content_type & parameters & E & P & _).
  now exists content_type, parameters.
Defined.

(** POST /ping is refused with 405 when GET is 1 and POST is 2. *)
Lemma table_methods_witness :
  api_handler_pre_check a0 (request [user_agent; token]) 2 "/ping"
  = PreCheckError 405 (response_405 a0).
Proof.
  refine (proj2 (proj1
    (@table_methods unit unit httpd a0 (request [user_agent; token])
       {| path := "/ping"; accepted_methods := 1; need_token := 1;
          process_cb := ping_process_cb; check_cb := None |}
       _ _ _ _ _ _) _)).
  - discriminate.
  - discriminate.
  - reflexivity.
  - discriminate.
  - discriminate.
  - simpl. auto.
  - discriminate.
Defined.

(** GET on an unknown path: the body is the standard 404 body. *)
Lemma served_status_and_body_witness :
  response_body (response_404 a0) = JSON_404.
Proof.
  refine (proj2
    (@served_status_and_body unit unit httpd JanssonModel.jansson
       (constant_callbacks 0 0 None) tt [] (request [user_agent])
       1 "/nowhere" "" 0 404 (response_404 a0) _) JSON_404 _).
  - reflexivity.
  - simpl. auto.
Defined.

(** POST /scan with an empty array and a checker that refuses it. *)
Lemma check_failure_422_witness :
  served_outcome
    (@api_handler_serve unit unit httpd JanssonModel.jansson
       (constant_callbacks 1 0 None) a0
       (request [user_agent; token; header "Content-Type" "application/json"])
       2 "/scan" "[]" 2)
  = Queued 422 (response_422 a0).
Proof.
  refine (proj1 (proj1
    (@check_failure_422 unit unit httpd JanssonModel.jansson
       (constant_callbacks 1 0 None) a0
       (request [user_agent; token; header "Content-Type" "application/json"])
       2 "/scan" "[]" 2 scan_check_cb (Some (JSON_ARRAY [])) _) _)).
  - simpl. auto.
  - discriminate.
Defined.

(** GET /ping without any header is answered 403. *)
Lemma status_tells_cause_witness :
  MHD_lookup_connection_value (request []) MHD_HEADER_KIND "User-Agent" = None.
Proof.
  refine (proj1 (proj2
    (@status_tells_cause unit unit httpd JanssonModel.jansson
       (constant_callbacks 0 0 None) a0 (request []) 1 "/ping" "" 0
       403 (response_403 a0) _)) _).
  - reflexivity.
  - reflexivity.
Defined.

Lemma add_then_remove_restores_witness :
  api_handler_remove_client
    (snd (api_handler_add_client (api_handler_new (api_client := bool) tt)
            "1234" (Some true))) "1234"
  = (0, api_handler_new tt).
Proof.
  apply add_then_remove_restores. reflexivity.
Defined.

Lemma remove_then_again_witness :
  let a1 : api_handler bool unit :=
    snd (api_handler_remove_client
           (registry_step (api_handler_new tt) (Op_add "1234" (Some true)))
           "1234") in
  api_handler_remove_client a1 "1234" = (1, a1) /\
  fst (api_handler_add_client a1 "1234" (Some false)) = 0 /\
  api_handler_get_client (snd (api_handler_add_client a1 "1234" (Some false)))
    "1234" = Some false.
Proof.
  apply (remove_then_again
           (registry_step (api_handler_new (api_client := bool) tt)
              (Op_add "1234" (Some true))) "1234" (Some false)).
  - apply reachable_step, reachable_new.
  - reflexivity.
Defined.

Lemma get_client_iff_registered_witness :
  api_handler_get_client
    (registry_step (api_handler_new (api_client := bool) (tt : unit))
       (Op_add "1234" (Some true))) "1234"
  = Some true.
Proof.
  apply get_client_iff_registered.
  - apply reachable_step, reachable_new.
  - simpl. auto.
Defined.

Lemma register_all_retrievable_witness :
  api_handler_get_client
    (register_all (api_handler_new (api_client := bool) (tt : unit))
       [("1234", Some true); ("5678", Some false)]) "5678"
  = Some false.
Proof.
  refine (proj1
    (register_all_retrievable [("1234", Some true); ("5678", Some false)]
       (api_handler_new (api_client := bool) (tt : unit)) _ _)
    "5678" (Some false) _).
  - repeat (constructor; [simpl; intuition discriminate|]). constructor.
  - intros token0 _. reflexivity.
  - simpl. auto.
Defined.

Lemma reachable_is_new_with_table_witness :
  let a1 : api_handler bool unit :=
    registry_step (api_handler_new tt) (Op_add "1234" (Some true)) in
  exists ud, a1 = set_client_table (api_handler_new ud) (client_table a1).
Proof.
  apply reachable_is_new_with_table. apply reachable_step, reachable_new.
Defined.
